(** * aiohttp_data_handler: message dispatch and connection lifecycle

    A shallow embedding of [fastapi_data_handler/websocket_handler.py]:
    the decorator that fills the handler dict, [WebSocketHandler.handle_data],
    [WebSocketHandlerServer.broadcast_json] and [handle], and
    [WebSocketHandlerClient.start].

    Coroutines are state-passing functions that also return the list of
    events they emitted and either a value or the exception they raised.
    The transport (aiohttp) is outside the repository: a connection is an
    object identity, with a [closed] flag and a table telling whether
    [send_json] raises on it; the frames a connection delivers and the way
    its stream ends are inputs of the receive loops. *)

From stdpp Require Import gmap strings list fin_maps.

Set Implicit Arguments.
Open Scope string_scope.
Open Scope list_scope.

(** ** Python values *)

(** What [json.loads] produces, which is also what handlers return. *)
#[warnings="-register-all"]
Inductive value : Type :=
| JNull
| JBool (b : bool)
| JInt (z : Z)
| JFloat (m e : Z)
| JStr (s : string)
| JList (l : list value)
| JDict (d : list (string * value)).

(** [bool(v)], as used by [if ret:]. *)
Definition truthy (v : value) : bool :=
  match v with
  | JNull => false
  | JBool b => b
  | JInt z => negb (Z.eqb z 0)
  | JFloat m _ => negb (Z.eqb m 0)
  | JStr s => negb (String.eqb s EmptyString)
  | JList l => match l with [] => false | _ => true end
  | JDict d => match d with [] => false | _ => true end
  end.

(** Exceptions, by class. *)
Inductive exn : Type :=
| CancelledError
| TypeError
| AttributeError
| ValueError
| JSONDecodeError
| KeyError
| SystemExit
| OtherError (name : string).

Definition is_CancelledError (e : exn) : bool :=
  match e with CancelledError => true | _ => false end.

Inductive result (A : Type) : Type :=
| Ret (a : A)
| Raise (e : exn).
Arguments Ret {A} a.
Arguments Raise {A} e.

(** [d.get(k)] on a dict whose keys are unique: the value, or [None]. *)
Fixpoint dict_get (d : list (string * value)) (k : string) : value :=
  match d with
  | [] => JNull
  | (k', v) :: d' => if String.eqb k' k then v else dict_get d' k
  end.

(** [data.get(k)]: only a dict has the method. *)
Definition py_get (data : value) (k : string) : result value :=
  match data with
  | JDict d => Ret (dict_get d k)
  | _ => Raise AttributeError
  end.

(** ** Connections, frames, events *)

(** A connection object, by identity. *)
Definition conn := nat.

Inductive WSMsgType : Type :=
| CONTINUATION | TEXT | BINARY | PING | PONG | CLOSE | CLOSING | CLOSED | ERROR.

(** An inbound frame: its type, and what [json.loads(msg.data)] evaluates
    to on it (a value, or the exception [json.loads] raises). *)
Record frame : Type := Frame { ftype : WSMsgType; loads_data : result value }.

(** How [async for msg in ws] stops: the stream ends, or awaiting the next
    frame raises. *)
Inductive stream_end : Type :=
| StreamEnd
| StreamRaises (e : exn).

(** What a connection delivers to one loop: the frames the iteration hands
    to the loop body, in order, and how the iteration stops. A message of
    type [CLOSE], [CLOSING] or [CLOSED] ends the iteration and is not among
    the frames. *)
Record stream : Type := Stream { frames : list frame; ending : stream_end }.

Inductive level : Type := INFO | WARN | LOG_ERROR.

(** The pieces of an f-string: literal text and interpolated values. *)
Inductive fragment : Type :=
| Lit (s : string)
| Val (v : value)
| WsException (ws : conn).

Inductive event : Type :=
| EvLog (lvl : level) (msg : list fragment)
| EvCall (fname : string) (data : value) (ws : conn)
| EvOnConnect (ws : conn)
| EvOnDisconnect (data : value)
| EvAppend (ws : conn)
| EvRemove (ws : conn)
| EvSendJson (ws : conn) (msg : value)
| EvClose (ws : conn)
| EvSessionOpen
| EvWsConnect (url : string) (ssl : bool)
| EvAexit (ws : conn)
| EvSessionClose
| EvPrint (s : string).

(** ** User code

    Hooks and handlers are written by the user of the library. As in the
    two example programs, a body is a sequence of prints, sends, broadcasts
    and closes that ends by returning a value or raising. *)
Inductive ucmd : Type :=
| UPrint (s : string)
| USendJson (ws : conn) (msg : value)
| UBroadcast (msg : value)
| UClose (ws : conn).

Inductive ufinish : Type :=
| UReturn (v : value)
| URaise (e : exn).

Record ucode : Type := UCode { ucmds : list ucmd; ufin : ufinish }.

(** [pass] / [return]. *)
Definition unoop : ucode := UCode [] (UReturn JNull).

(** A function object: its [__name__] and its body (the arguments after
    [self] are the decoded message and the connection). *)
Record pyfunc : Type := PyFunc { fn_name : string; fn_body : value -> conn -> ucode }.

(** ** The decorator *)

Inductive str_or_func : Type :=
| Str (name : string)
| Func (f : pyfunc).

(** The inner wrappers [_data_handler] / [__data_handler]: a new function
    object that calls [f]. *)
Definition wrapper (wname : string) (f : pyfunc) : pyfunc :=
  PyFunc wname (fn_body f).

(** What [data_handler(name_or_func)] gives back: in the first case the dict
    is already updated and the wrapper is returned; in the second case the
    closure [_data_handler] is returned, which updates the dict once it is
    applied to the function. *)
Inductive decorated : Type :=
| Registered (handler' : gmap string pyfunc) (w : pyfunc)
| Closure (k : pyfunc -> gmap string pyfunc -> gmap string pyfunc * pyfunc).

Definition data_handler (handler : gmap string pyfunc) (name_or_func : str_or_func)
  : decorated :=
  match name_or_func with
  | Func f =>
      Registered (<[fn_name f := f]> handler) (wrapper "_data_handler" f)
  | Str name =>
      Closure (fun f handler => (<[name := f]> handler, wrapper "__data_handler" f))
  end.

(** [@handler def f] when [name] is [None], [@handler(name) def f]
    otherwise: the dict afterwards and the name bound by the [def]. *)
Definition register (name : option string) (f : pyfunc) (handler : gmap string pyfunc)
  : gmap string pyfunc * pyfunc :=
  match name with
  | None =>
      match data_handler handler (Func f) with
      | Registered handler' w => (handler', w)
      | Closure k => k f handler
      end
  | Some n =>
      match data_handler handler (Str n) with
      | Registered handler' w => (handler', w)
      | Closure k => k f handler
      end
  end.

(** ** State, and the monad of coroutines *)

(** [self_] holds the mutable attributes of the server or client object;
    [closed] is the set of connections whose [closed] flag is set;
    [send_err] tells on which connections [send_json] raises, and what. *)
Record state (O : Type) : Type := State {
  self_ : O;
  closed : gset conn;
  send_err : gmap conn exn
}.
Arguments State {O} _ _ _.

Record run (O A : Type) : Type := Run {
  res : result A;
  post : state O;
  evs : list event
}.
Arguments Run {O A} _ _ _.

Definition M (O A : Type) : Type := state O -> run O A.

Definition ret {O A} (a : A) : M O A := fun st => Run (Ret a) st [].

Definition raise {O A} (e : exn) : M O A := fun st => Run (Raise e) st [].

Definition bind {O A B} (m : M O A) (k : A -> M O B) : M O B := fun st =>
  let r := m st in
  match res r with
  | Ret a => let r' := k a (post r) in Run (res r') (post r') (evs r ++ evs r')
  | Raise e => Run (Raise e) (post r) (evs r)
  end.

Declare Scope coro_scope.
Delimit Scope coro_scope with coro.
Notation "x <- c1 ;; c2" := (bind c1 (fun x => c2))
  (at level 100, c1 at next level, right associativity) : coro_scope.
Notation "c1 ;; c2" := (bind c1 (fun _ => c2))
  (at level 100, right associativity) : coro_scope.
Open Scope coro_scope.

Definition emit {O} (e : event) : M O unit := fun st => Run (Ret tt) st [e].

Definition get_self {O} : M O O := fun st => Run (Ret (self_ st)) st [].

Definition set_self {O} (o : O) : M O unit := fun st =>
  Run (Ret tt) (State o (closed st) (send_err st)) [].

Definition lift_result {O A} (r : result A) : M O A := fun st => Run r st [].

(** [try: body finally: fin]: [fin] runs whatever [body] did; an exception
    of [fin] replaces the outcome of [body]. *)
Definition try_finally {O A} (body : M O A) (fin : M O unit) : M O A := fun st =>
  let r := body st in
  let r' := fin (post r) in
  Run (match res r' with Ret _ => res r | Raise e => Raise e end)
      (post r') (evs r ++ evs r').

(** [try: body except E: h], where [catches] tells the instances of [E]. *)
Definition try_except {O A} (body : M O A) (catches : exn -> bool) (h : M O A)
  : M O A := fun st =>
  let r := body st in
  match res r with
  | Ret _ => r
  | Raise e =>
      if catches e
      then let r' := h (post r) in Run (res r') (post r') (evs r ++ evs r')
      else r
  end.

(** ** The transport *)

(** [ws.closed] *)
Definition is_closed {O} (ws : conn) : M O bool := fun st =>
  Run (Ret (bool_decide (ws ∈ closed st))) st [].

(** [await ws.close()]: idempotent, never fails. *)
Definition ws_close {O} (ws : conn) : M O unit := fun st =>
  Run (Ret tt) (State (self_ st) ({[ws]} ∪ closed st) (send_err st)) [EvClose ws].

(** [await ws.send_json(msg)]: one send attempt, which may raise. *)
Definition send_json {O} (ws : conn) (msg : value) : M O unit := fun st =>
  Run (match send_err st !! ws with Some e => Raise e | None => Ret tt end)
      st [EvSendJson ws msg].

(** ** WebSocketHandler: the dispatcher base class *)

(** The attributes of the base class that never change after construction,
    with the two hooks a subclass may override. *)
Record WebSocketHandler : Type := {
  class_name : string;
  _command_key : string;
  _data_handler : gmap string pyfunc;
  on_connect : conn -> ucode;
  on_disconnect : value -> ucode
}.

Definition WebSocketHandler_init (cls : string) (data_handler : gmap string pyfunc)
  : WebSocketHandler :=
  {| class_name := cls;
     _command_key := "type";
     _data_handler := data_handler;
     on_connect := fun _ => unoop;
     on_disconnect := fun _ => unoop |}.

(** [k in d] for a dict with [str] keys: a list or a dict cannot be hashed,
    any other value that is not a [str] equals no key. *)
Definition dict_contains (d : gmap string pyfunc) (k : value) : result bool :=
  match k with
  | JStr s => Ret (bool_decide (is_Some (d !! s)))
  | JList _ | JDict _ => Raise TypeError
  | _ => Ret false
  end.

(** [d[k]] *)
Definition dict_getitem (d : gmap string pyfunc) (k : value) : result pyfunc :=
  match k with
  | JStr s => match d !! s with Some f => Ret f | None => Raise KeyError end
  | JList _ | JDict _ => Raise TypeError
  | _ => Raise KeyError
  end.

Section Dispatch.
Context {O : Type}.
(** What [self.broadcast_json] is for the class of [self]. *)
Variable broadcast_json : value -> M O unit.

Definition run_ucmd (c : ucmd) : M O unit :=
  match c with
  | UPrint s => emit (EvPrint s)
  | USendJson ws msg => send_json ws msg
  | UBroadcast msg => broadcast_json msg
  | UClose ws => ws_close ws
  end.

Fixpoint run_ucmds (cs : list ucmd) : M O unit :=
  match cs with
  | [] => ret tt
  | c :: cs' => run_ucmd c ;; run_ucmds cs'
  end.

Definition run_ucode (c : ucode) : M O value :=
  run_ucmds (ucmds c) ;;
  match ufin c with
  | UReturn v => ret v
  | URaise e => raise e
  end.

(** [await self.on_connect(ws)] *)
Definition call_on_connect (self : WebSocketHandler) (ws : conn) : M O unit :=
  emit (EvOnConnect ws) ;;
  run_ucode (on_connect self ws) ;;
  ret tt.

(** [await self.on_disconnect(data)] *)
Definition call_on_disconnect (self : WebSocketHandler) (data : value) : M O unit :=
  emit (EvOnDisconnect data) ;;
  run_ucode (on_disconnect self data) ;;
  ret tt.

Definition handle_data (self : WebSocketHandler) (data : value) (ws : conn)
  : M O value :=
  cmd <- lift_result (py_get data (_command_key self)) ;;
  known <- lift_result (dict_contains (_data_handler self) cmd) ;;
  if negb known then
    emit (EvLog LOG_ERROR [Lit "Error: unknown command "; Val cmd;
                           Lit " on "; Lit (class_name self)]) ;;
    ret JNull
  else
    emit (EvLog INFO [Lit "handle "; Val cmd; Lit "..."]) ;;
    f <- lift_result (dict_getitem (_data_handler self) cmd) ;;
    emit (EvCall (fn_name f) data ws) ;;
    run_ucode (fn_body f data ws).
End Dispatch.

(** ** WebSocketHandlerServer *)

Module Server.

(** [websockets] and [client_id] are attributes of the server object;
    [ws_data] is the local variable of [handle], kept in the state so that
    the [finally] block reads what was assigned before an exception. *)
Record t : Type := Obj {
  websockets : list conn;
  client_id : string;
  ws_data : value
}.

Definition init : t := Obj [] "client_id" JNull.

Definition set_websockets (l : list conn) : M t unit :=
  o <- get_self ;; set_self (Obj l (client_id o) (ws_data o)).

Definition set_ws_data (v : value) : M t unit :=
  o <- get_self ;; set_self (Obj (websockets o) (client_id o) v).

(** The loop of [broadcast_json] over the elements of the list. *)
Fixpoint broadcast_loop (wss : list conn) (msg : value) : M t unit :=
  match wss with
  | [] => ret tt
  | ws :: rest =>
      c <- is_closed ws ;;
      (if negb c then send_json ws msg else ret tt) ;;
      broadcast_loop rest msg
  end.

Definition broadcast_json (msg : value) : M t unit :=
  o <- get_self ;;
  broadcast_loop (websockets o) msg.

(** [l.remove(x)]: drops the first occurrence, [ValueError] if none. *)
Fixpoint list_remove (x : conn) (l : list conn) : option (list conn) :=
  match l with
  | [] => None
  | y :: l' =>
      if Nat.eqb y x then Some l'
      else match list_remove x l' with
           | Some l'' => Some (y :: l'')
           | None => None
           end
  end.

(** [self.websockets.append(ws)] *)
Definition websockets_append (ws : conn) : M t unit :=
  o <- get_self ;;
  emit (EvAppend ws) ;;
  set_websockets (websockets o ++ [ws]).

(** [self.websockets.remove(ws)] *)
Definition websockets_remove (ws : conn) : M t unit :=
  o <- get_self ;;
  emit (EvRemove ws) ;;
  match list_remove ws (websockets o) with
  | Some l => set_websockets l
  | None => raise ValueError
  end.

(** One iteration of [async for msg in ws]. *)
Definition on_frame (self : WebSocketHandler) (ws : conn) (msg : frame) : M t unit :=
  match ftype msg with
  | ERROR =>
      emit (EvLog LOG_ERROR [Lit "WS connection closed with exception ";
                             WsException ws])
  | TEXT =>
      data <- lift_result (loads_data msg) ;;
      r <- handle_data broadcast_json self data ws ;;
      if truthy r then set_ws_data r else ret tt
  | _ => ret tt
  end.

Fixpoint receive_loop (self : WebSocketHandler) (ws : conn)
    (fs : list frame) (fin : stream_end) : M t unit :=
  match fs with
  | [] => match fin with StreamEnd => ret tt | StreamRaises e => raise e end
  | msg :: rest => on_frame self ws msg ;; receive_loop self ws rest fin
  end.

(** The [try] block of [handle]. *)
Definition handle_try (self : WebSocketHandler) (ws : conn) (inbound : stream)
  : M t unit :=
  websockets_append ws ;;
  call_on_connect broadcast_json self ws ;;
  receive_loop self ws (frames inbound) (ending inbound).

(** The [finally] block of [handle]. *)
Definition handle_finally (self : WebSocketHandler) (ws : conn) : M t unit :=
  websockets_remove ws ;;
  c <- is_closed ws ;;
  (if negb c then ws_close ws else ret tt) ;;
  o <- get_self ;;
  call_on_disconnect broadcast_json self (ws_data o).

Definition handle (self : WebSocketHandler) (ws : conn) (inbound : stream)
  : M t unit :=
  set_ws_data JNull ;;
  try_finally (handle_try self ws inbound) (handle_finally self ws).

End Server.

(** ** WebSocketHandlerClient *)

Module Client.

(** The attributes of the client object. [session] tells whether
    [self.session] holds a session object. *)
Record t : Type := Obj {
  ws : option conn;
  url : string;
  ssl : bool;
  session : bool
}.

(** [__init__]: the object, and what constructing it does. *)
Definition init (url : string) (ssl : bool) : t * list event :=
  (Obj None url ssl true, [EvSessionOpen]).

Definition set_ws (w : conn) : M t unit :=
  o <- get_self ;; set_self (Obj (Some w) (url o) (ssl o) (session o)).

(** The client class has no [broadcast_json] method. *)
Definition broadcast_json (msg : value) : M t unit := raise AttributeError.

(** Entering [async with self.session.ws_connect(url, ssl=ssl) as ws]:
    [connect] is what the attempt gives, a connection or an exception. *)
Definition ws_connect (url : string) (ssl : bool) (connect : result conn)
  : M t conn :=
  emit (EvWsConnect url ssl) ;; lift_result connect.

(** Leaving the [async with] block, normally or not: the context manager
    closes the connection, and the outcome of the block stands. *)
Definition async_with {A} (w : conn) (body : M t A) : M t A := fun st =>
  let r := body st in
  Run (res r)
      (State (self_ (post r)) ({[w]} ∪ closed (post r)) (send_err (post r)))
      (evs r ++ [EvAexit w]).

(** [await self.session.close()] *)
Definition session_close : M t unit := emit EvSessionClose.

(** One iteration of [async for message in ws]. *)
Definition on_frame (self : WebSocketHandler) (w : conn) (message : frame)
  : M t unit :=
  data <- lift_result (loads_data message) ;;
  handle_data broadcast_json self data w ;;
  ret tt.

Fixpoint receive_loop (self : WebSocketHandler) (w : conn)
    (fs : list frame) (fin : stream_end) : M t unit :=
  match fs with
  | [] => match fin with StreamEnd => ret tt | StreamRaises e => raise e end
  | message :: rest => on_frame self w message ;; receive_loop self w rest fin
  end.

(** The [try] block of [start]. *)
Definition start_try (self : WebSocketHandler) (connect : result conn)
    (inbound : stream) : M t unit :=
  o <- get_self ;;
  emit (EvLog INFO [Lit "Connecting to "; Val (JStr (url o)); Lit "..."]) ;;
  w <- ws_connect (url o) (ssl o) connect ;;
  async_with w
    (set_ws w ;;
     call_on_connect broadcast_json self w ;;
     receive_loop self w (frames inbound) (ending inbound)).

(** The [except asyncio.exceptions.CancelledError] clause. *)
Definition start_except : M t unit :=
  emit (EvLog WARN [Lit "Keyboard Interrupt, exiting..."]).

(** The [finally] block of [start]. *)
Definition start_finally (self : WebSocketHandler) : M t unit :=
  o <- get_self ;;
  (match ws o with Some w => ws_close w | None => ret tt end) ;;
  (if session o then session_close else ret tt) ;;
  call_on_disconnect broadcast_json self JNull.

Definition start (self : WebSocketHandler) (connect : result conn)
    (inbound : stream) : M t unit :=
  try_finally
    (try_except (start_try self connect inbound) is_CancelledError start_except)
    (start_finally self).

End Client.

(** ** Sample programs *)

Definition text (v : value) : frame := Frame TEXT (Ret v).

Definition msg_of_type (ty : string) : value := JDict [("type", JStr ty)].

(** The handler of the example server: print, then broadcast the message
    back to all clients. *)
Definition example_message : pyfunc :=
  PyFunc "message" (fun data _ => UCode [UPrint "Server received"; UBroadcast data]
                                        (UReturn JNull)).

Definition example_server : WebSocketHandler :=
  WebSocketHandler_init "Server" (fst (register None example_message ∅)).

Definition st0 {O} (o : O) : state O := State o ∅ ∅.

(** ** Reading event lists *)

Definition is_send (e : event) : bool :=
  match e with EvSendJson _ _ => true | _ => false end.

Definition is_call (e : event) : bool :=
  match e with EvCall _ _ _ => true | _ => false end.

Definition is_append (ws : conn) (e : event) : bool :=
  match e with EvAppend ws' => Nat.eqb ws' ws | _ => false end.

Definition is_remove (ws : conn) (e : event) : bool :=
  match e with EvRemove ws' => Nat.eqb ws' ws | _ => false end.

Definition is_on_disconnect (e : event) : bool :=
  match e with EvOnDisconnect _ => true | _ => false end.

Definition is_session_open (e : event) : bool :=
  match e with EvSessionOpen => true | _ => false end.

Definition is_session_close (e : event) : bool :=
  match e with EvSessionClose => true | _ => false end.

(** How many events of [l] satisfy [p]. *)
Definition count (p : event -> bool) (l : list event) : nat :=
  length (List.filter p l).

(** The events that are neither a change of the active set, nor the
    disconnect hook, nor the opening or closing of the session: all that
    hooks, handlers, dispatch and the receive loops emit. *)
Definition quiet (e : event) : bool :=
  match e with
  | EvAppend _ | EvRemove _ | EvOnDisconnect _ | EvSessionOpen | EvSessionClose => false
  | _ => true
  end.

Definition Quiet (e : event) : Prop := quiet e = true.

(** ** Broadcast *)

(** The connections of the active set whose [closed] flag is not set. *)
Definition open_websockets (st : state Server.t) : list conn :=
  List.filter (fun ws => negb (bool_decide (ws ∈ closed st)))
              (Server.websockets (self_ st)).

(** The connections a send was attempted on, in order. *)
Fixpoint send_attempts (l : list event) : list conn :=
  match l with
  | [] => []
  | EvSendJson ws _ :: l' => ws :: send_attempts l'
  | _ :: l' => send_attempts l'
  end.

(** The elements of [l] up to and including the first one on which
    [send_json] raises. *)
Fixpoint until_failure (err : gmap conn exn) (l : list conn) : list conn :=
  match l with
  | [] => []
  | ws :: rest =>
      match err !! ws with
      | Some _ => [ws]
      | None => ws :: until_failure err rest
      end
  end.

(** The exception of the first element of [l] on which [send_json] raises. *)
Fixpoint first_failure (err : gmap conn exn) (l : list conn) : option exn :=
  match l with
  | [] => None
  | ws :: rest =>
      match err !! ws with
      | Some e => Some e
      | None => first_failure err rest
      end
  end.

(** Two open connections in the active set; sending to the first raises. *)
Definition two_open_first_fails : state Server.t :=
  State (Server.Obj [1; 2] "client_id" JNull) ∅
        {[ 1 := OtherError "ConnectionResetError" ]}.

(** The key a registration binds: the explicit name when there is one, the
    function's own name otherwise. *)
Definition key_of (name : option string) (f : pyfunc) : string :=
  match name with
  | Some n => n
  | None => fn_name f
  end.

(** Two handlers with different names and different bodies. *)
Definition handler_A : pyfunc :=
  PyFunc "first" (fun _ _ => UCode [UPrint "A"] (UReturn (JStr "A"))).

Definition handler_B : pyfunc :=
  PyFunc "second" (fun _ _ => UCode [UPrint "B"] (UReturn (JStr "B"))).

(** ** The stages of a server connection *)

(** The state once [handle] has run [ws_data = None] and
    [self.websockets.append(ws)]. *)
Definition accepted (ws : conn) (st : state Server.t) : state Server.t :=
  State (Server.Obj (Server.websockets (self_ st) ++ [ws])
                    (Server.client_id (self_ st)) JNull)
        (closed st) (send_err st).

(** [l] without the first occurrence of [ws]. *)
Fixpoint remove_first (ws : conn) (l : list conn) : list conn :=
  match l with
  | [] => []
  | y :: l' => if Nat.eqb y ws then l' else y :: remove_first ws l'
  end.

(** The state in which the disconnect hook is called: [ws] is out of the
    active set and closed. *)
Definition torn_down (ws : conn) (st : state Server.t) : state Server.t :=
  State (Server.Obj (remove_first ws (Server.websockets (self_ st)))
                    (Server.client_id (self_ st)) (Server.ws_data (self_ st)))
        ({[ws]} ∪ closed st) (send_err st).

(** The three teardown steps, from the state [st] in which the [try] block
    of [handle] ended. *)
Definition teardown_events (ws : conn) (st : state Server.t) : list event :=
  [EvRemove ws] ++
  (if bool_decide (ws ∈ closed st) then [] else [EvClose ws]) ++
  [EvOnDisconnect (Server.ws_data (self_ st))].

(** A server whose connect hook greets every connection of the active set
    and then raises. *)
Definition greeting_refuser : WebSocketHandler :=
  {| class_name := "Server";
     _command_key := "type";
     _data_handler := fst (register None example_message ∅);
     on_connect := fun _ => UCode [UBroadcast (msg_of_type "hello")]
                                  (URaise (OtherError "Refused"));
     on_disconnect := fun _ => unoop |}.

(** ** The stages of a client *)

(** The state once [start] has entered the [async with] block on the
    connection [w] and run [self.ws = ws]. *)
Definition connected (w : conn) (st : state Client.t) : state Client.t :=
  State (Client.Obj (Some w) (Client.url (self_ st)) (Client.ssl (self_ st))
                    (Client.session (self_ st)))
        (closed st) (send_err st).

(** The [try] block of [start] with its [except] clause. *)
Definition start_guarded (self : WebSocketHandler) (connect : result conn)
    (inbound : stream) : M Client.t unit :=
  try_except (Client.start_try self connect inbound)
             is_CancelledError Client.start_except.

(** The state in which the client's disconnect hook is called: the
    connection held by [self.ws], if any, is closed. *)
Definition cleaned (st : state Client.t) : state Client.t :=
  State (self_ st)
        (match Client.ws (self_ st) with
         | Some w => {[w]} ∪ closed st
         | None => closed st
         end)
        (send_err st).

(** The cleanup sequence, from the state [st] in which the [try] block of
    [start] ended. *)
Definition cleanup_events (st : state Client.t) : list event :=
  (match Client.ws (self_ st) with Some w => [EvClose w] | None => [] end) ++
  (if Client.session (self_ st) then [EvSessionClose] else []) ++
  [EvOnDisconnect JNull].

(** The client of the example: it greets on connect, and its handler
    prints and exits. *)
Definition example_client_message : pyfunc :=
  PyFunc "message" (fun _ _ => UCode [UPrint "Client received"] (URaise SystemExit)).

Definition example_client : WebSocketHandler :=
  {| class_name := "DataHandler";
     _command_key := "type";
     _data_handler := fst (register None example_client_message ∅);
     on_connect := fun ws =>
       UCode [USendJson ws (JDict [("type", JStr "message");
                                   ("message", JStr "hello!")])]
             (UReturn JNull);
     on_disconnect := fun _ => unoop |}.

Definition example_url : string := "http://localhost:8080/ws".

(** A server whose connect hook raises. *)
Definition refusing_server : WebSocketHandler :=
  {| class_name := "Server";
     _command_key := "type";
     _data_handler := fst (register None example_message ∅);
     on_connect := fun _ => UCode [UPrint "no"] (URaise (OtherError "Refused"));
     on_disconnect := fun _ => unoop |}.

(** A server state with one other connection in the active set. *)
Definition one_other : state Server.t := st0 (Server.Obj [3] "client_id" JNull).

(** A newly constructed client. *)
Definition new_client : state Client.t := st0 (fst (Client.init example_url true)).

(** ** Invariants of coroutines *)

(** A step that changes the object along [R], closes connections at most,
    and leaves the behaviour of sends alone. *)
Definition frame_step {O} (R : relation O) : relation (state O) := fun s s' =>
  R (self_ s) (self_ s') /\ closed s ⊆ closed s' /\ send_err s' = send_err s.

Definition same_websockets : relation Server.t := fun o o' =>
  Server.websockets o' = Server.websockets o.

Definition same_session : relation Client.t := fun o o' =>
  Client.session o' = Client.session o /\
  Client.url o' = Client.url o /\ Client.ssl o' = Client.ssl o.

(** [m] moves every state to an [I]-related one and emits quiet events
    only. *)
Definition keeps {O A} (I : relation (state O)) (m : M O A) : Prop :=
  forall st, I st (post (m st)) /\ Forall Quiet (evs (m st)).


(** ** Readings of the decorator, of dispatch and of the loops *)

(** The [__name__] of the function a registration returns. *)
Definition wrapper_name (name : option string) : string :=
  match name with
  | None => "_data_handler"
  | Some _ => "__data_handler"
  end.

(** The values Python can hash: all but lists and dicts. *)
Definition hashable (v : value) : bool :=
  match v with
  | JList _ | JDict _ => false
  | _ => true
  end.

(** [v] is not a key of the handler dict [d], whose keys are [str]. *)
Definition not_registered (d : gmap string pyfunc) (v : value) : Prop :=
  match v with
  | JStr s => d !! s = None
  | _ => True
  end.

(** [k in d] for a decoded JSON object. *)
Fixpoint dict_has (d : list (string * value)) (k : string) : bool :=
  match d with
  | [] => false
  | (k', _) :: d' => if String.eqb k' k then true else dict_has d' k
  end.

(** The line [handle_data] logs for a command it does not know. *)
Definition unknown_command_log (self : WebSocketHandler) (cmd : value) : event :=
  EvLog LOG_ERROR [Lit "Error: unknown command "; Val cmd;
                   Lit " on "; Lit (class_name self)].

(** The line the server loop logs for a frame of type [ERROR]. *)
Definition error_frame_log (ws : conn) : event :=
  EvLog LOG_ERROR [Lit "WS connection closed with exception "; WsException ws].

(** The types of the messages [async for msg in ws] hands to the loop body:
    on a message of type [CLOSE], [CLOSING] or [CLOSED] the iteration ends,
    so the frames of a stream are never of these types. *)
Definition yielded (ty : WSMsgType) : bool :=
  match ty with
  | CLOSE | CLOSING | CLOSED => false
  | _ => true
  end.

Definition is_TEXT (ty : WSMsgType) : bool :=
  match ty with TEXT => true | _ => false end.

Definition is_ERROR (ty : WSMsgType) : bool :=
  match ty with ERROR => true | _ => false end.

(** One log line per frame of type [ERROR]. *)
Definition error_logs (ws : conn) (fs : list frame) : list event :=
  map (fun _ => error_frame_log ws)
      (List.filter (fun msg => is_ERROR (ftype msg)) fs).

(** The same frame under another type. *)
Definition retype (g : WSMsgType -> WSMsgType) (msg : frame) : frame :=
  Frame (g (ftype msg)) (loads_data msg).

(** A message without the command key, as in [{"notype": 1}]. *)
Definition notype_message : list (string * value) := [("notype", JInt 1)].
(** * Properties *)

(** ** Counting events *)

Lemma count_app p l1 l2 : count p (l1 ++ l2) = count p l1 + count p l2.
Proof. unfold count. by rewrite List.filter_app, length_app. Qed.

Lemma count_quiet p l :
  (forall e, Quiet e -> p e = false) -> Forall Quiet l -> count p l = 0.
Proof.
  intros Hp Hl. unfold count. induction Hl as [|e l He _ IH]; simpl; [done|].
  by rewrite (Hp e He).
Qed.

(** ** Invariants of coroutines *)

Section Keeps.
Context {O : Type} (I : relation (state O)) `{!PreOrder I}.
Local Abbreviation keeps := (keeps I).

Lemma keeps_ret {A} (a : A) : keeps (ret a).
Proof. intros st; simpl; split; [reflexivity | constructor]. Qed.

Lemma keeps_raise {A} (e : exn) : keeps (raise (A:=A) e).
Proof. intros st; simpl; split; [reflexivity | constructor]. Qed.

Lemma keeps_lift_result {A} (r : result A) : keeps (lift_result r).
Proof. intros st; simpl; split; [reflexivity | constructor]. Qed.

Lemma keeps_emit (e : event) : Quiet e -> keeps (emit e).
Proof. intros He st; simpl; split; [reflexivity | by repeat constructor]. Qed.

Lemma keeps_get_self : keeps get_self.
Proof. intros st; simpl; split; [reflexivity | constructor]. Qed.

Lemma keeps_is_closed (ws : conn) : keeps (is_closed ws).
Proof. intros st; simpl; split; [reflexivity | constructor]. Qed.

Lemma keeps_send_json (ws : conn) (msg : value) : keeps (send_json ws msg).
Proof. intros st; simpl; split; [reflexivity | by repeat constructor]. Qed.

Lemma keeps_bind {A B} (m : M O A) (k : A -> M O B) :
  keeps m -> (forall a, keeps (k a)) -> keeps (bind m k).
Proof.
  intros Hm Hk st. unfold bind. destruct (Hm st) as [HI HP].
  destruct (res (m st)) as [a|e]; simpl; [|done].
  destruct (Hk a (post (m st))) as [HI' HP']. split.
  - by etransitivity.
  - by apply Forall_app.
Qed.

Lemma keeps_if {A} (b : bool) (m1 m2 : M O A) :
  keeps m1 -> keeps m2 -> keeps (if b then m1 else m2).
Proof. by destruct b. Qed.

(** Closing a connection is allowed by [I]. *)
Hypothesis I_close : forall st ws,
  I st (State (self_ st) ({[ws]} ∪ closed st) (send_err st)).

Lemma keeps_ws_close (ws : conn) : keeps (ws_close ws).
Proof. intros st; simpl; split; [apply I_close | by repeat constructor]. Qed.

Variable broadcast_json : value -> M O unit.
Hypothesis keeps_broadcast : forall msg, keeps (broadcast_json msg).

Lemma keeps_run_ucmds (cs : list ucmd) : keeps (run_ucmds broadcast_json cs).
Proof.
  induction cs as [|c cs IH]; simpl; [apply keeps_ret|].
  apply keeps_bind; [|done].
  destruct c; simpl.
  - by apply keeps_emit.
  - apply keeps_send_json.
  - apply keeps_broadcast.
  - apply keeps_ws_close.
Qed.

Lemma keeps_run_ucode (c : ucode) : keeps (run_ucode broadcast_json c).
Proof.
  unfold run_ucode. apply keeps_bind; [apply keeps_run_ucmds|].
  intros _. destruct (ufin c); [apply keeps_ret | apply keeps_raise].
Qed.

Lemma keeps_call_on_connect self ws :
  keeps (call_on_connect broadcast_json self ws).
Proof.
  unfold call_on_connect.
  apply keeps_bind; [by apply keeps_emit | intros _].
  apply keeps_bind; [apply keeps_run_ucode | intros _; apply keeps_ret].
Qed.

Lemma keeps_handle_data self data ws :
  keeps (handle_data broadcast_json self data ws).
Proof.
  unfold handle_data.
  apply keeps_bind; [apply keeps_lift_result|]. intros cmd.
  apply keeps_bind; [apply keeps_lift_result|]. intros known.
  destruct known; simpl.
  - apply keeps_bind; [by apply keeps_emit | intros _].
    apply keeps_bind; [apply keeps_lift_result | intros f].
    apply keeps_bind; [by apply keeps_emit | intros _; apply keeps_run_ucode].
  - apply keeps_bind; [by apply keeps_emit | intros _; apply keeps_ret].
Qed.
End Keeps.

Lemma send_attempts_sends (msg : value) (l : list conn) :
  send_attempts (map (fun ws => EvSendJson ws msg) l) = l.
Proof. induction l as [|ws l IH]; simpl; [done | by rewrite IH]. Qed.

Lemma count_sends (msg : value) (l : list conn) :
  count is_send (map (fun ws => EvSendJson ws msg) l) = length l.
Proof. unfold count. induction l as [|ws l IH]; simpl; [done | by rewrite IH]. Qed.

Lemma failure_split (err : gmap conn exn) (l : list conn) :
  match first_failure err l with
  | None => until_failure err l = l
  | Some e =>
      exists before ws after,
        l = before ++ ws :: after /\
        until_failure err l = before ++ [ws] /\
        err !! ws = Some e /\
        first_failure err before = None
  end.
Proof.
  induction l as [|ws l IH]; simpl; [done|].
  destruct (err !! ws) as [e|] eqn:Hws.
  - by exists [], ws, l.
  - destruct (first_failure err l) as [e|].
    + destruct IH as (before & ws' & after & -> & -> & Hws' & Hb).
      exists (ws :: before), ws', after. simpl. by rewrite Hws.
    + by rewrite IH.
Qed.

Lemma broadcast_loop_spec (l : list conn) (msg : value) (st : state Server.t) :
  let r := Server.broadcast_loop l msg st in
  let open := List.filter (fun ws => negb (bool_decide (ws ∈ closed st))) l in
  post r = st /\
  evs r = map (fun ws => EvSendJson ws msg) (until_failure (send_err st) open) /\
  res r = match first_failure (send_err st) open with
          | Some e => Raise e
          | None => Ret tt
          end.
Proof.
  induction l as [|ws l IH]; simpl; [done|].
  destruct IH as (IHp & IHe & IHr).
  destruct (bool_decide (ws ∈ closed st)); simpl; unfold bind; simpl.
  - by rewrite IHp, IHe, IHr.
  - destruct (send_err st !! ws) as [e|]; simpl; [done|].
    by rewrite IHp, IHe, IHr.
Qed.

(** ** Tactics *)

(** Runs the primitive steps of a coroutine, leaving user code and loops
    folded. *)
Ltac coro_step :=
  unfold bind, ret, raise, emit, get_self, set_self, lift_result, is_closed,
    ws_close, try_finally, try_except,
    Server.set_websockets, Server.set_ws_data, Client.set_ws,
    Client.session_close, Client.ws_connect, Client.async_with;
  simpl.

(** Cases on the outcome of the coroutine the goal is waiting for. *)
Ltac case_res :=
  match goal with
  | |- context [match res ?r with _ => _ end] => destruct (res r)
  end.

(** ** Registration and dispatch *)

Lemma register_insert name f handler :
  fst (register name f handler) = <[key_of name f := f]> handler.
Proof. by destruct name. Qed.

(** C8. A registration with an explicit name binds that name, whatever the
    function is called; a registration without a name binds the function's
    own name. In both cases the function is what the key is bound to and no
    other key changes. *)
Theorem register_key (name : string) (f : pyfunc) (handler : gmap string pyfunc) :
  fst (register (Some name) f handler) = <[name := f]> handler /\
  fst (register (Some name) f handler) !! name = Some f /\
  fst (register None f handler) = <[fn_name f := f]> handler /\
  fst (register None f handler) !! fn_name f = Some f /\
  data_handler handler (Func f) =
    Registered (<[fn_name f := f]> handler) (wrapper "_data_handler" f).
Proof.
  repeat split; simpl; by rewrite ?lookup_insert_eq.
Qed.

(** Dispatch of a message whose command is a registered key. *)
Lemma handle_data_known {O} (bc : value -> M O unit) self data ws st x f :
  py_get data (_command_key self) = Ret (JStr x) ->
  _data_handler self !! x = Some f ->
  let r := handle_data bc self data ws st in
  let b := run_ucode bc (fn_body f data ws) st in
  evs r = [EvLog INFO [Lit "handle "; Val (JStr x); Lit "..."];
           EvCall (fn_name f) data ws] ++ evs b /\
  res r = res b /\ post r = post b.
Proof.
  intros Hget Hf r b. subst r b. unfold handle_data.
  rewrite Hget. coro_step. rewrite Hf. simpl. done.
Qed.

(** Dispatch of a message whose command is absent, or is a value that can
    be hashed and is not a registered key: one error is logged, no handler
    runs, nothing is raised and [None] is returned. *)
Lemma handle_data_unknown {O} (bc : value -> M O unit) self d ws st :
  dict_contains (_data_handler self) (dict_get d (_command_key self)) = Ret false ->
  handle_data bc self (JDict d) ws st =
  Run (Ret JNull) st
      [EvLog LOG_ERROR [Lit "Error: unknown command ";
                        Val (dict_get d (_command_key self));
                        Lit " on "; Lit (class_name self)]].
Proof.
  intros Hc. unfold handle_data. simpl. coro_step. by rewrite Hc.
Qed.

(** C6 at [{"type": []}]: the command is a list, the membership test raises
    [TypeError] before anything is logged. *)
Theorem handle_data_unhashable_command :
  let r := handle_data Server.broadcast_json example_server
             (JDict [("type", JList [])]) 7 (st0 Server.init) in
  res r = Raise TypeError /\ evs r = [] /\ count is_call (evs r) = 0.
Proof. by vm_compute. Qed.

(** C9. When two registrations bind the same key, the dict after both is
    the dict after the second alone, and a message whose command is that
    key is handed to the second function only: dispatch logs the command,
    calls the second function, and does and returns what its body does. *)
Theorem register_overwrites {O} (bc : value -> M O unit) self handler
    nA A nB B x data ws st :
  key_of nA A = x ->
  key_of nB B = x ->
  _data_handler self = fst (register nB B (fst (register nA A handler))) ->
  py_get data (_command_key self) = Ret (JStr x) ->
  let r := handle_data bc self data ws st in
  let b := run_ucode bc (fn_body B data ws) st in
  fst (register nB B (fst (register nA A handler))) = fst (register nB B handler) /\
  evs r = [EvLog INFO [Lit "handle "; Val (JStr x); Lit "..."];
           EvCall (fn_name B) data ws] ++ evs b /\
  res r = res b /\ post r = post b.
Proof.
  intros HA HB Hreg Hget r b.
  assert (Heq : fst (register nB B (fst (register nA A handler))) =
                fst (register nB B handler)).
  { rewrite !register_insert, HA, HB. apply insert_insert_eq. }
  split; [done|].
  apply handle_data_known; [done|].
  by rewrite Hreg, Heq, register_insert, HB, lookup_insert_eq.
Qed.

Lemma register_overwrites_witness :
  let self := WebSocketHandler_init "Server"
                (fst (register (Some "x") handler_B
                        (fst (register (Some "x") handler_A ∅)))) in
  let r := handle_data Server.broadcast_json self (msg_of_type "x") 7
             (st0 Server.init) in
  let b := run_ucode Server.broadcast_json
             (fn_body handler_B (msg_of_type "x") 7) (st0 Server.init) in
  fst (register (Some "x") handler_B (fst (register (Some "x") handler_A ∅))) =
    fst (register (Some "x") handler_B ∅) /\
  evs r = [EvLog INFO [Lit "handle "; Val (JStr "x"); Lit "..."];
           EvCall (fn_name handler_B) (msg_of_type "x") 7] ++ evs b /\
  res r = res b /\ post r = post b.
Proof.
  apply (register_overwrites Server.broadcast_json
           (WebSocketHandler_init "Server"
              (fst (register (Some "x") handler_B
                      (fst (register (Some "x") handler_A ∅)))))
           ∅ (Some "x") handler_A (Some "x") handler_B
           (msg_of_type "x") 7 (st0 Server.init));
    reflexivity.
Defined.

(** ** The server's receive loop *)

#[local] Instance frame_step_preorder {O} (R : relation O) `{!PreOrder R} :
  PreOrder (frame_step R).
Proof.
  split.
  - intros s. by repeat split.
  - intros s1 s2 s3 (H1 & H2 & H3) (H1' & H2' & H3'). repeat split.
    + by etransitivity.
    + set_solver.
    + congruence.
Qed.

#[local] Instance same_websockets_preorder : PreOrder same_websockets.
Proof.
  split; [by intros o | intros o1 o2 o3; unfold same_websockets; congruence].
Qed.

Lemma frame_step_close {O} (R : relation O) `{!PreOrder R} (st : state O) ws :
  frame_step R st (State (self_ st) ({[ws]} ∪ closed st) (send_err st)).
Proof. repeat split; simpl; [reflexivity | set_solver]. Qed.

Lemma keeps_server_broadcast (R : relation Server.t) `{!PreOrder R} msg :
  keeps (frame_step R) (Server.broadcast_json msg).
Proof.
  intros st.
  assert (Hr : forall l,
    post (Server.broadcast_loop l msg st) = st /\
    Forall Quiet (evs (Server.broadcast_loop l msg st))).
  { intros l. destruct (broadcast_loop_spec l msg st) as (Hp & He & _).
    split; [done|]. rewrite He. apply Forall_forall.
    intros e (ws & -> & _)%list_elem_of_fmap. done. }
  unfold Server.broadcast_json, bind, get_self. simpl.
  destruct (Hr (Server.websockets (self_ st))) as [Hp He].
  destruct (res (Server.broadcast_loop (Server.websockets (self_ st)) msg st));
    simpl; rewrite ?Hp; split; try reflexivity; done.
Qed.

(** Applies an invariant lemma and finds the preorder it asks for. *)
Tactic Notation "keep" uconstr(H) := (eapply H; try (by apply _)).

Lemma keeps_set_ws_data (v : value) :
  keeps (frame_step same_websockets) (Server.set_ws_data v).
Proof. intros st. simpl. by repeat split. Qed.

Lemma keeps_server_on_frame self ws msg :
  keeps (frame_step same_websockets) (Server.on_frame self ws msg).
Proof.
  assert (Htext : keeps (frame_step same_websockets)
    (data <- lift_result (loads_data msg) ;;
     r <- handle_data Server.broadcast_json self data ws ;;
     if truthy r then Server.set_ws_data r else ret tt)).
  { keep keeps_bind; [keep keeps_lift_result | intros data].
    keep keeps_bind.
    - keep keeps_handle_data;
        [intros; keep frame_step_close | intros; keep keeps_server_broadcast].
    - intros r.
      destruct (truthy r); [apply keeps_set_ws_data | keep keeps_ret]. }
  unfold Server.on_frame.
  destruct (ftype msg); first [done | keep keeps_ret | by keep keeps_emit].
Qed.

Lemma keeps_server_receive_loop self ws fs fin :
  keeps (frame_step same_websockets) (Server.receive_loop self ws fs fin).
Proof.
  induction fs as [|msg fs IH]; simpl.
  - destruct fin; [keep keeps_ret | keep keeps_raise].
  - keep keeps_bind; [apply keeps_server_on_frame | done].
Qed.

Lemma bind_assoc {O A B C} (m : M O A) (k1 : A -> M O B) (k2 : B -> M O C)
    (st : state O) :
  bind (bind m k1) k2 st = bind m (fun a => bind (k1 a) k2) st.
Proof.
  unfold bind. destruct (res (m st)) as [a|e]; simpl; [|done].
  destruct (res (k1 a (post (m st)))); simpl; by rewrite ?app_assoc.
Qed.

Lemma bind_ext {O A B} (m : M O A) (k k' : A -> M O B) (st : state O) :
  (forall a st', k a st' = k' a st') -> bind m k st = bind m k' st.
Proof.
  intros Hk. unfold bind. destruct (res (m st)); [|done]. by rewrite Hk.
Qed.

(** The loop over a stream goes through the state the loop over any
    prefix of the frames ends in. *)
Lemma receive_loop_app self ws fs1 fs2 fin (st : state Server.t) :
  Server.receive_loop self ws (fs1 ++ fs2) fin st =
  (Server.receive_loop self ws fs1 StreamEnd ;;
   Server.receive_loop self ws fs2 fin) st.
Proof.
  revert st. induction fs1 as [|msg fs1 IH]; intros st; simpl.
  - unfold bind, ret. simpl.
    by destruct (Server.receive_loop self ws fs2 fin st).
  - rewrite bind_assoc. apply bind_ext. intros _ st'. apply IH.
Qed.

(** ** The server's [handle] *)

Lemma list_remove_last (ws : conn) (l : list conn) :
  is_Some (Server.list_remove ws (l ++ [ws])).
Proof.
  induction l as [|y l [l' IH]]; simpl.
  - rewrite Nat.eqb_refl. by eexists.
  - destruct (Nat.eqb y ws); [by eexists|]. rewrite IH. by eexists.
Qed.

Lemma list_remove_last_fresh (ws : conn) (l : list conn) :
  ws ∉ l -> Server.list_remove ws (l ++ [ws]) = Some l.
Proof.
  induction l as [|y l IH]; simpl; intros Hin.
  - by rewrite Nat.eqb_refl.
  - apply not_elem_of_cons in Hin as [Hne Hin].
    destruct (Nat.eqb_spec y ws) as [->|_]; [done|]. by rewrite IH.
Qed.

(** The [try] block, from the entry of [handle]: the append, then the
    connect hook and the loop from the state [accepted]. *)
Lemma handle_try_accepted self ws inbound st :
  let rest := (call_on_connect Server.broadcast_json self ws ;;
               Server.receive_loop self ws (frames inbound) (ending inbound))
                (accepted ws st) in
  let body := Server.handle_try self ws inbound
                (post (Server.set_ws_data JNull st)) in
  res body = res rest /\ post body = post rest /\
  evs body = EvAppend ws :: evs rest.
Proof.
  simpl. unfold Server.handle_try, Server.websockets_append, accepted.
  unfold bind at 1 2 3. simpl. unfold bind at 1. simpl.
  by destruct (res _).
Qed.

Lemma keeps_handle_rest self ws inbound :
  keeps (frame_step same_websockets)
    (call_on_connect Server.broadcast_json self ws ;;
     Server.receive_loop self ws (frames inbound) (ending inbound)).
Proof.
  keep keeps_bind.
  - keep keeps_call_on_connect;
      [intros; keep frame_step_close | intros; keep keeps_server_broadcast].
  - intros _. apply keeps_server_receive_loop.
Qed.

(** When the [try] block ends, [ws] is still the last element of the
    active set, whatever the hook, the handlers and the stream did. *)
Lemma handle_try_websockets self ws inbound st :
  let body := Server.handle_try self ws inbound
                (post (Server.set_ws_data JNull st)) in
  Server.websockets (self_ (post body)) = Server.websockets (self_ st) ++ [ws] /\
  exists tl, evs body = EvAppend ws :: tl /\ Forall Quiet tl.
Proof.
  pose proof (handle_try_accepted self ws inbound st) as H.
  cbv zeta in H. destruct H as (_ & Hp & He).
  destruct (keeps_handle_rest self ws inbound (accepted ws st))
    as [(Hw & _ & _) Hq].
  cbv zeta. rewrite Hp, He. split; [apply Hw | by eexists].
Qed.

Lemma list_remove_remove_first (ws : conn) (l l' : list conn) :
  Server.list_remove ws l = Some l' -> remove_first ws l = l'.
Proof.
  revert l'. induction l as [|y l IH]; intros l'; simpl; [done|].
  destruct (Nat.eqb y ws); [by intros [= ->]|].
  destruct (Server.list_remove ws l) as [l''|]; [|done].
  intros [= <-]. by rewrite (IH l'' eq_refl).
Qed.

(** What [l.remove(ws)] leaves: [l] without the first [ws] in it. *)
Lemma list_remove_split (ws : conn) (l l' : list conn) :
  Server.list_remove ws l = Some l' ->
  exists before after,
    l = before ++ ws :: after /\ (ws ∉ before) /\ l' = before ++ after.
Proof.
  revert l'. induction l as [|y l IH]; intros l'; simpl; [done|].
  destruct (Nat.eqb_spec y ws) as [->|Hne].
  - intros [= ->]. exists [], l'. repeat split. apply not_elem_of_nil.
  - destruct (Server.list_remove ws l) as [l''|]; [|done].
    intros [= <-]. destruct (IH l'' eq_refl) as (before & after & -> & Hb & ->).
    exists (y :: before), after. repeat split.
    apply not_elem_of_cons. split; [done | done].
Qed.

(** The [finally] block, from a state whose active set holds [ws]. *)
Lemma handle_finally_spec self ws (st : state Server.t) :
  is_Some (Server.list_remove ws (Server.websockets (self_ st))) ->
  let hook := run_ucode Server.broadcast_json
                (on_disconnect self (Server.ws_data (self_ st)))
                (torn_down ws st) in
  let r := Server.handle_finally self ws st in
  res r = match res hook with Ret _ => Ret tt | Raise e => Raise e end /\
  post r = post hook /\
  evs r = teardown_events ws st ++ evs hook.
Proof.
  intros [l' Hl'] hook r. subst hook r.
  unfold torn_down, teardown_events.
  rewrite (@list_remove_remove_first ws _ l' Hl').
  unfold Server.handle_finally, Server.websockets_remove, call_on_disconnect.
  coro_step. rewrite Hl'. coro_step.
  destruct (bool_decide_reflect (ws ∈ closed st)) as [Hin|Hnin]; coro_step.
  - rewrite (subseteq_union_1_L {[ws]} (closed st))
      by by apply singleton_subseteq_l.
    case_res; simpl; by rewrite ?app_nil_r.
  - case_res; simpl; by rewrite ?app_nil_r.
Qed.

Lemma keeps_server_ucode (c : ucode) :
  keeps (frame_step eq) (run_ucode Server.broadcast_json c).
Proof.
  keep keeps_run_ucode;
    [intros; keep frame_step_close | intros; keep keeps_server_broadcast].
Qed.

(** [handle] is its [try] block followed by its [finally] block, which
    finds [ws] in the active set whatever happened before. *)
Lemma handle_decompose self ws inbound st :
  let body := Server.handle_try self ws inbound
                (post (Server.set_ws_data JNull st)) in
  let hook := run_ucode Server.broadcast_json
                (on_disconnect self (Server.ws_data (self_ (post body))))
                (torn_down ws (post body)) in
  let r := Server.handle self ws inbound st in
  evs r = evs body ++ teardown_events ws (post body) ++ evs hook /\
  res r = match res hook with Ret _ => res body | Raise e => Raise e end /\
  post r = post hook /\
  Server.list_remove ws (Server.websockets (self_ (post body))) =
    Some (Server.websockets (self_ (post r))) /\
  ws ∈ closed (post r).
Proof.
  intros body hook r.
  destruct (handle_try_websockets self ws inbound st) as [Hw _].
  fold body in Hw.
  assert (Hrm : is_Some (Server.list_remove ws
                           (Server.websockets (self_ (post body))))).
  { rewrite Hw. apply list_remove_last. }
  destruct (handle_finally_spec self ws (post body) Hrm) as (Hfr & Hfp & Hfe).
  fold hook in Hfr, Hfp, Hfe.
  assert (Hr : evs r = evs body ++ evs (Server.handle_finally self ws (post body))
               /\ post r = post (Server.handle_finally self ws (post body))
               /\ res r = match res (Server.handle_finally self ws (post body)) with
                          | Ret _ => res body | Raise e => Raise e end).
  { subst r body. unfold Server.handle. by coro_step. }
  destruct Hr as (He & Hp & Hres).
  destruct (keeps_server_ucode
              (on_disconnect self (Server.ws_data (self_ (post body))))
              (torn_down ws (post body))) as [(Hself & Hcl & _) _].
  fold hook in Hself, Hcl.
  repeat split.
  - by rewrite He, Hfe.
  - rewrite Hres, Hfr. by destruct (res hook).
  - by rewrite Hp, Hfp.
  - rewrite Hp, Hfp, <- Hself. destruct Hrm as [l' Hl'].
    unfold torn_down. cbn [self_ Server.websockets].
    by rewrite (@list_remove_remove_first ws _ l' Hl').
  - rewrite Hp, Hfp. apply Hcl. unfold torn_down. cbn [closed].
    apply elem_of_union_l, elem_of_singleton. done.
Qed.

(** C2. Whatever way the [try] block of [handle] ends, by the end of the
    stream or by an exception of the stream, of a handler or of the connect
    hook, the events of [handle] are those of the block, then the removal of
    the connection from the active set, then its close when it is not closed
    yet, then the disconnect hook on the retained outcome, and last what the
    hook itself does. When the block ends the active set is the one [handle]
    found with the connection added at its end, and when [handle] is over it
    is that list without the first occurrence of the connection; the
    connection ends closed, and [handle] ends as the block did unless the
    hook raises. *)
Theorem handle_teardown_in_order self ws inbound st :
  let body := Server.handle_try self ws inbound
                (post (Server.set_ws_data JNull st)) in
  let hook := run_ucode Server.broadcast_json
                (on_disconnect self (Server.ws_data (self_ (post body))))
                (torn_down ws (post body)) in
  let r := Server.handle self ws inbound st in
  evs r = evs body ++
          [EvRemove ws] ++
          (if bool_decide (ws ∈ closed (post body)) then [] else [EvClose ws]) ++
          [EvOnDisconnect (Server.ws_data (self_ (post body)))] ++
          evs hook /\
  Server.websockets (self_ (post body)) = Server.websockets (self_ st) ++ [ws] /\
  (exists before after,
     Server.websockets (self_ (post body)) = before ++ ws :: after /\
     (ws ∉ before) /\
     Server.websockets (self_ (post r)) = before ++ after) /\
  ws ∈ closed (post r) /\
  res r = match res hook with Ret _ => res body | Raise e => Raise e end.
Proof.
  intros body hook r.
  destruct (handle_decompose self ws inbound st) as (He & Hres & _ & Hrm & Hcl).
  destruct (handle_try_websockets self ws inbound st) as (Hw & _).
  fold body hook r in He, Hres, Hrm, Hcl. fold body in Hw.
  split; [|split; [done | split; [|done]]].
  - rewrite He. unfold teardown_events. by rewrite <- !app_assoc.
  - by apply list_remove_split.
Qed.

Lemma quiet_not_append ws e : Quiet e -> is_append ws e = false.
Proof. by destruct e. Qed.

Lemma quiet_not_remove ws e : Quiet e -> is_remove ws e = false.
Proof. by destruct e. Qed.

Lemma quiet_not_on_disconnect e : Quiet e -> is_on_disconnect e = false.
Proof. by destruct e. Qed.

Lemma quiet_not_session_close e : Quiet e -> is_session_close e = false.
Proof. by destruct e. Qed.

Lemma quiet_not_session_open e : Quiet e -> is_session_open e = false.
Proof. by destruct e. Qed.

Lemma count_cons p e l : count p (e :: l) = (if p e then 1 else 0) + count p l.
Proof. unfold count. simpl. by destruct (p e). Qed.

Lemma count_occ_split (ws : conn) (l before after : list conn) :
  l ++ [ws] = before ++ ws :: after ->
  List.count_occ Nat.eq_dec (before ++ after) ws =
  List.count_occ Nat.eq_dec l ws.
Proof.
  intros H.
  apply (f_equal (fun l => List.count_occ Nat.eq_dec l ws)) in H.
  rewrite !List.count_occ_app in H. simpl in H.
  destruct (Nat.eq_dec ws ws); [|done].
  rewrite List.count_occ_app. unfold conn in *. lia.
Qed.

(** C4, as amended. [handle] appends the connection to the active set
    before it calls the connect hook: the hook and the loop run from a state
    whose active set is the one [handle] found with the connection added at
    its end, and the set stays so after the hook and after any number of
    frames of the stream, however the stream goes on. When [handle] is over
    the set is that list without the first occurrence of the connection, so
    it holds the connection as often as before (not at all when it was not
    in it). [handle] appends the connection exactly once and removes it
    exactly once. *)
Theorem handle_active_set self ws inbound st :
  let enter := (Server.set_ws_data JNull ;; Server.websockets_append ws) st in
  let r := Server.handle self ws inbound st in
  Server.websockets (self_ (post enter)) = Server.websockets (self_ st) ++ [ws] /\
  evs (Server.handle_try self ws inbound (post (Server.set_ws_data JNull st))) =
    EvAppend ws ::
    evs ((call_on_connect Server.broadcast_json self ws ;;
          Server.receive_loop self ws (frames inbound) (ending inbound))
           (post enter)) /\
  (forall n fin,
     Server.websockets
       (self_ (post (Server.handle_try self ws
                       (Stream (take n (frames inbound)) fin)
                       (post (Server.set_ws_data JNull st))))) =
     Server.websockets (self_ st) ++ [ws]) /\
  (exists before after,
     Server.websockets (self_ st) ++ [ws] = before ++ ws :: after /\
     (ws ∉ before) /\
     Server.websockets (self_ (post r)) = before ++ after) /\
  List.count_occ Nat.eq_dec (Server.websockets (self_ (post r))) ws =
  List.count_occ Nat.eq_dec (Server.websockets (self_ st)) ws /\
  count (is_append ws) (evs r) = 1 /\
  count (is_remove ws) (evs r) = 1.
Proof.
  intros enter r.
  destruct (handle_decompose self ws inbound st) as (He & _ & _ & Hrm & _).
  destruct (handle_try_websockets self ws inbound st) as (Hw & tl & Hb & Hq).
  pose proof (handle_try_accepted self ws inbound st) as Ha. cbv zeta in Ha.
  destruct Ha as (_ & _ & Hae).
  fold r in He, Hrm. rewrite Hw in Hrm.
  destruct (list_remove_split _ _ Hrm) as (before & after & Hsplit & Hnin & Hpost).
  destruct (keeps_server_ucode
    (on_disconnect self (Server.ws_data (self_ (post (Server.handle_try
       self ws inbound (post (Server.set_ws_data JNull st)))))))
    (torn_down ws (post (Server.handle_try
       self ws inbound (post (Server.set_ws_data JNull st))))))
    as [_ Hhook].
  split; [done|]. split; [exact Hae|]. split; [|split; [|split; [|split]]].
  - intros n fin.
    by destruct (handle_try_websockets self ws
                   (Stream (take n (frames inbound)) fin) st).
  - by exists before, after.
  - rewrite Hpost. by apply count_occ_split.
  - rewrite He, Hb, !count_app, count_cons,
      (count_quiet _ (quiet_not_append ws) Hq),
      (count_quiet _ (quiet_not_append ws) Hhook).
    unfold teardown_events, count. simpl. rewrite Nat.eqb_refl.
    by destruct (bool_decide _).
  - rewrite He, Hb, !count_app, count_cons,
      (count_quiet _ (quiet_not_remove ws) Hq),
      (count_quiet _ (quiet_not_remove ws) Hhook).
    unfold teardown_events, count. simpl. rewrite Nat.eqb_refl.
    by destruct (bool_decide _).
Qed.

(** C4, as stated, fails: the connection is in the active set before its
    receive loop runs. Here the connect hook broadcasts and then raises:
    connection 7 gets the broadcast as a member of the set, and its loop
    never handles the frame of the stream. *)
Lemma handle_member_without_loop :
  let inbound := Stream [text (msg_of_type "message")] StreamEnd in
  let r := Server.handle greeting_refuser 7 inbound one_other in
  evs r = [EvAppend 7; EvOnConnect 7;
           EvSendJson 3 (msg_of_type "hello"); EvSendJson 7 (msg_of_type "hello");
           EvRemove 7; EvClose 7; EvOnDisconnect JNull] /\
  send_attempts (evs r) = [3; 7] /\
  count is_call (evs r) = 0.
Proof. by vm_compute. Qed.

(** C10. When the connect hook raises [e], the receive loop is not entered,
    and [handle] still removes the connection from the active set, closes it
    when it is not closed yet and calls the disconnect hook on [None], in
    that order; the connection, which the hook left at the end of the
    active set, is taken out of it (its first occurrence goes), it ends
    closed, and [handle] then raises [e] (or what the disconnect hook
    raised, if it did). *)
Theorem handle_on_connect_raises self ws inbound st e :
  let connect := call_on_connect Server.broadcast_json self ws (accepted ws st) in
  res connect = Raise e ->
  let hook := run_ucode Server.broadcast_json (on_disconnect self JNull)
                (torn_down ws (post connect)) in
  let r := Server.handle self ws inbound st in
  evs r = [EvAppend ws] ++ evs connect ++
          [EvRemove ws] ++
          (if bool_decide (ws ∈ closed (post connect)) then [] else [EvClose ws]) ++
          [EvOnDisconnect JNull] ++
          evs hook /\
  Server.websockets (self_ (post connect)) = Server.websockets (self_ st) ++ [ws] /\
  (exists before after,
     Server.websockets (self_ (post connect)) = before ++ ws :: after /\
     (ws ∉ before) /\
     Server.websockets (self_ (post r)) = before ++ after) /\
  ws ∈ closed (post r) /\
  res r = match res hook with Ret _ => Raise e | Raise e' => Raise e' end.
Proof.
  intros connect Hraise hook r.
  pose proof (handle_decompose self ws inbound st) as Hd.
  pose proof (handle_try_accepted self ws inbound st) as Ha.
  cbv zeta in Hd, Ha.
  set (body := Server.handle_try self ws inbound
                 (post (Server.set_ws_data JNull st))) in *.
  destruct Ha as (Hbr & Hbp & Hbe).
  assert (Hrest :
    res body = Raise e /\ post body = post connect /\
    evs body = EvAppend ws :: evs connect).
  { rewrite Hbr, Hbp, Hbe. unfold bind. fold connect. by rewrite Hraise. }
  destruct Hrest as (Hr1 & Hp1 & He1).
  assert (Hself : self_ (accepted ws st) = self_ (post connect)).
  { assert (Hk : keeps (frame_step eq)
                   (call_on_connect Server.broadcast_json self ws)).
    { keep keeps_call_on_connect;
        [intros; keep frame_step_close | intros; keep keeps_server_broadcast]. }
    by destruct (Hk (accepted ws st)) as [(Hself & _) _]. }
  assert (Hdata : Server.ws_data (self_ (post connect)) = JNull)
    by by rewrite <- Hself.
  assert (Hws : Server.websockets (self_ (post connect)) =
                Server.websockets (self_ st) ++ [ws])
    by by rewrite <- Hself.
  rewrite Hp1, Hr1, He1, Hdata in Hd. fold hook r in Hd.
  destruct Hd as (He & Hres & _ & Hrm & Hcl).
  split; [|split; [done | split; [|done]]].
  - rewrite He. unfold teardown_events. rewrite Hdata. simpl.
    by rewrite <- !app_assoc.
  - by apply list_remove_split.
Qed.

(** ** The client *)

#[local] Instance same_session_preorder : PreOrder same_session.
Proof.
  split; [by intros o | intros o1 o2 o3 (?&?&?) (?&?&?)].
  unfold same_session. repeat split; congruence.
Qed.

Lemma keeps_client_broadcast (R : relation Client.t) `{!PreOrder R} msg :
  keeps (frame_step R) (Client.broadcast_json msg).
Proof. keep keeps_raise. Qed.

Lemma keeps_client_ucode (c : ucode) :
  keeps (frame_step eq) (run_ucode Client.broadcast_json c).
Proof.
  keep keeps_run_ucode;
    [intros; keep frame_step_close | intros; keep keeps_client_broadcast].
Qed.

Lemma keeps_client_receive_loop self w fs fin :
  keeps (frame_step eq) (Client.receive_loop self w fs fin).
Proof.
  induction fs as [|msg fs IH]; simpl.
  - destruct fin; [keep keeps_ret | keep keeps_raise].
  - keep keeps_bind; [|done]. unfold Client.on_frame.
    keep keeps_bind; [keep keeps_lift_result | intros data].
    keep keeps_bind; [|intros _; keep keeps_ret].
    keep keeps_handle_data;
      [intros; keep frame_step_close | intros; keep keeps_client_broadcast].
Qed.

(** What runs inside the [async with] block once [self.ws] is set. *)
Lemma keeps_client_session self w inbound :
  keeps (frame_step eq)
    (call_on_connect Client.broadcast_json self w ;;
     Client.receive_loop self w (frames inbound) (ending inbound)).
Proof.
  keep keeps_bind; [|intros _; apply keeps_client_receive_loop].
  keep keeps_call_on_connect;
    [intros; keep frame_step_close | intros; keep keeps_client_broadcast].
Qed.

(** The [try] block of [start] when the connection attempt raises. *)
Lemma start_try_refused self e inbound st :
  Client.start_try self (Raise e) inbound st =
  Run (Raise e) st
      [EvLog INFO [Lit "Connecting to "; Val (JStr (Client.url (self_ st)));
                   Lit "..."];
       EvWsConnect (Client.url (self_ st)) (Client.ssl (self_ st))].
Proof. reflexivity. Qed.

(** The [try] block of [start] when the connection attempt gives [w]. *)
Lemma start_try_connected self w inbound st :
  let inner := (call_on_connect Client.broadcast_json self w ;;
                Client.receive_loop self w (frames inbound) (ending inbound))
                 (connected w st) in
  let r := Client.start_try self (Ret w) inbound st in
  res r = res inner /\
  post r = State (self_ (post inner)) ({[w]} ∪ closed (post inner))
                 (send_err (post inner)) /\
  evs r = [EvLog INFO [Lit "Connecting to "; Val (JStr (Client.url (self_ st)));
                       Lit "..."];
           EvWsConnect (Client.url (self_ st)) (Client.ssl (self_ st))] ++
          evs inner ++ [EvAexit w].
Proof.
  intros inner r. subst inner r.
  unfold Client.start_try, connected.
  unfold bind at 1 2 3. simpl. unfold Client.async_with.
  unfold bind at 1 2. simpl. done.
Qed.

(** The [try] block keeps the session, stores the connection it got, and
    emits quiet events only. *)
Lemma start_try_spec self connect inbound st :
  let r := Client.start_try self connect inbound st in
  Client.ws (self_ (post r)) =
    match connect with Ret w => Some w | Raise _ => Client.ws (self_ st) end /\
  Client.session (self_ (post r)) = Client.session (self_ st) /\
  Forall Quiet (evs r).
Proof.
  destruct connect as [w|e].
  - pose proof (start_try_connected self w inbound st) as H. cbv zeta in H.
    destruct H as (_ & Hp & He).
    destruct (keeps_client_session self w inbound (connected w st))
      as [(Hself & _ & _) Hq].
    cbv zeta. rewrite Hp, He. cbn [self_]. rewrite <- Hself.
    split; [done | split; [done|]].
    repeat (apply Forall_cons; split; [done|]).
    apply Forall_app. split; [done | by repeat constructor].
  - cbv zeta. rewrite start_try_refused. repeat split; by repeat constructor.
Qed.

Lemma start_guarded_spec self connect inbound st :
  let r := start_guarded self connect inbound st in
  Client.ws (self_ (post r)) =
    match connect with Ret w => Some w | Raise _ => Client.ws (self_ st) end /\
  Client.session (self_ (post r)) = Client.session (self_ st) /\
  Forall Quiet (evs r).
Proof.
  pose proof (start_try_spec self connect inbound st) as H. cbv zeta in H.
  destruct H as (Hw & Hs & Hq).
  cbv zeta. unfold start_guarded, try_except.
  destruct (res (Client.start_try self connect inbound st)) as [?|e]; [done|].
  destruct (is_CancelledError e); [|done].
  unfold Client.start_except, emit. cbn [res post evs].
  repeat split; try done.
  apply Forall_app. split; [done | by repeat constructor].
Qed.

(** The [finally] block of [start], from any state. *)
Lemma start_finally_spec self (st : state Client.t) :
  let hook := run_ucode Client.broadcast_json (on_disconnect self JNull)
                (cleaned st) in
  let r := Client.start_finally self st in
  res r = match res hook with Ret _ => Ret tt | Raise e => Raise e end /\
  post r = post hook /\
  evs r = cleanup_events st ++ evs hook.
Proof.
  intros hook r. subst hook r. destruct st as [[w s u b] cl se].
  unfold Client.start_finally, call_on_disconnect, cleaned, cleanup_events.
  coro_step.
  destruct w as [w|], b; coro_step; case_res; simpl; by rewrite ?app_nil_r.
Qed.

(** [start] is its guarded [try] block followed by its [finally] block. *)
Lemma start_decompose self connect inbound st :
  let body := start_guarded self connect inbound st in
  let hook := run_ucode Client.broadcast_json (on_disconnect self JNull)
                (cleaned (post body)) in
  let r := Client.start self connect inbound st in
  evs r = evs body ++ cleanup_events (post body) ++ evs hook /\
  res r = match res hook with Ret _ => res body | Raise e => Raise e end /\
  post r = post hook.
Proof.
  intros body hook r.
  destruct (start_finally_spec self (post body)) as (Hfr & Hfp & Hfe).
  fold hook in Hfr, Hfp, Hfe.
  subst r. unfold Client.start, try_finally. fold (start_guarded self connect inbound).
  fold body. cbn [res post evs]. rewrite Hfr, Hfp, Hfe.
  repeat split. by destruct (res hook).
Qed.

(** C3. However the guarded [try] block of [start] ends (the stream ended,
    a cancellation was caught, or an exception is on its way out), the
    events of [start] are those of the block, then the close of the
    connection held by [self.ws] if there is one, then the close of the
    session if there is one, then the disconnect hook on [None], and last
    what the hook itself does. The connection the attempt gave is the one
    held by [self.ws]; the disconnect hook is called exactly once and the
    session is closed exactly once when there is one. *)
Theorem start_cleanup_once self connect inbound st :
  let body := start_guarded self connect inbound st in
  let hook := run_ucode Client.broadcast_json (on_disconnect self JNull)
                (cleaned (post body)) in
  let r := Client.start self connect inbound st in
  evs r = evs body ++
          (match Client.ws (self_ (post body)) with
           | Some w => [EvClose w] | None => [] end) ++
          (if Client.session (self_ (post body)) then [EvSessionClose] else []) ++
          [EvOnDisconnect JNull] ++
          evs hook /\
  Client.ws (self_ (post body)) =
    match connect with Ret w => Some w | Raise _ => Client.ws (self_ st) end /\
  Client.session (self_ (post body)) = Client.session (self_ st) /\
  count is_on_disconnect (evs r) = 1 /\
  count is_session_close (evs r) = (if Client.session (self_ st) then 1 else 0) /\
  res r = match res hook with Ret _ => res body | Raise e => Raise e end.
Proof.
  intros body hook r.
  destruct (start_decompose self connect inbound st) as (He & Hres & _).
  destruct (start_guarded_spec self connect inbound st) as (Hw & Hs & Hq).
  destruct (keeps_client_ucode (on_disconnect self JNull) (cleaned (post body)))
    as [_ Hhook].
  fold body in Hw, Hs, Hq. fold body hook r in He, Hres. fold hook in Hhook.
  split; [|split; [done | split; [done | split; [|split; [|done]]]]].
  - rewrite He. unfold cleanup_events. by rewrite <- !app_assoc.
  - rewrite He, !count_app,
      (count_quiet _ quiet_not_on_disconnect Hq),
      (count_quiet _ quiet_not_on_disconnect Hhook).
    unfold cleanup_events, count.
    by destruct (Client.ws _), (Client.session _).
  - rewrite He, !count_app,
      (count_quiet _ quiet_not_session_close Hq),
      (count_quiet _ quiet_not_session_close Hhook).
    unfold cleanup_events, count. rewrite <- Hs.
    by destruct (Client.ws _), (Client.session _).
Qed.

(** C7. When the [try] block of [start] raises [CancelledError], from the
    connection attempt, the connect hook, the stream or a handler, [start]
    logs one warning, runs the cleanup sequence, and returns normally
    unless the disconnect hook raises. *)
Theorem start_cancelled self connect inbound st :
  let attempt := Client.start_try self connect inbound st in
  res attempt = Raise CancelledError ->
  let hook := run_ucode Client.broadcast_json (on_disconnect self JNull)
                (cleaned (post attempt)) in
  let r := Client.start self connect inbound st in
  evs r = evs attempt ++
          [EvLog WARN [Lit "Keyboard Interrupt, exiting..."]] ++
          cleanup_events (post attempt) ++
          evs hook /\
  res r = match res hook with Ret _ => Ret tt | Raise e => Raise e end.
Proof.
  intros attempt Hc hook r.
  pose proof (start_decompose self connect inbound st) as Hd. cbv zeta in Hd.
  assert (Hg : res (start_guarded self connect inbound st) = Ret tt /\
               post (start_guarded self connect inbound st) = post attempt /\
               evs (start_guarded self connect inbound st) =
                 evs attempt ++ [EvLog WARN [Lit "Keyboard Interrupt, exiting..."]]).
  { unfold start_guarded, try_except. fold attempt. by rewrite Hc. }
  destruct Hg as (Hgr & Hgp & Hge).
  rewrite Hgr, Hgp, Hge in Hd. fold hook r in Hd.
  destruct Hd as (He & Hres & _). split; [|done].
  rewrite He. by rewrite <- !app_assoc.
Qed.

Lemma start_cancelled_witness :
  let inbound := Stream [] (StreamRaises CancelledError) in
  let attempt := Client.start_try example_client (Ret 7) inbound new_client in
  let hook := run_ucode Client.broadcast_json (on_disconnect example_client JNull)
                (cleaned (post attempt)) in
  let r := Client.start example_client (Ret 7) inbound new_client in
  evs r = evs attempt ++
          [EvLog WARN [Lit "Keyboard Interrupt, exiting..."]] ++
          cleanup_events (post attempt) ++
          evs hook /\
  res r = match res hook with Ret _ => Ret tt | Raise e => Raise e end.
Proof.
  apply (start_cancelled example_client (Ret 7)
           (Stream [] (StreamRaises CancelledError)) new_client).
  reflexivity.
Defined.

(** X20. An exception of another class than [CancelledError] is not
    caught: no warning is logged, the cleanup runs, and the exception leaves
    [start] (unless the disconnect hook raises another one). *)
Lemma start_error_propagates self connect inbound st e :
  res (Client.start_try self connect inbound st) = Raise e ->
  is_CancelledError e = false ->
  let attempt := Client.start_try self connect inbound st in
  let hook := run_ucode Client.broadcast_json (on_disconnect self JNull)
                (cleaned (post attempt)) in
  let r := Client.start self connect inbound st in
  evs r = evs attempt ++ cleanup_events (post attempt) ++ evs hook /\
  res r = match res hook with Ret _ => Raise e | Raise e' => Raise e' end.
Proof.
  intros He0 Hne attempt hook r.
  pose proof (start_decompose self connect inbound st) as Hd. cbv zeta in Hd.
  assert (Hg : res (start_guarded self connect inbound st) = Raise e /\
               post (start_guarded self connect inbound st) = post attempt /\
               evs (start_guarded self connect inbound st) = evs attempt).
  { unfold start_guarded, try_except. fold attempt. fold attempt in He0.
    by rewrite He0, Hne. }
  destruct Hg as (Hgr & Hgp & Hge).
  rewrite Hgr, Hgp, Hge in Hd. fold hook r in Hd.
  by destruct Hd as (He & Hres & _).
Qed.

Lemma call_on_connect_evs {O} (bc : value -> M O unit) self w (st : state O) :
  evs (call_on_connect bc self w st) =
  EvOnConnect w :: evs (run_ucode bc (on_connect self w) st).
Proof.
  unfold call_on_connect. coro_step. case_res; simpl; by rewrite ?app_nil_r.
Qed.

Lemma evs_bind {O A B} (m : M O A) (k : A -> M O B) (st : state O) :
  evs (bind m k st) =
  evs (m st) ++ match res (m st) with
                | Ret a => evs (k a (post (m st)))
                | Raise _ => []
                end.
Proof. unfold bind. destruct (res (m st)); simpl; by rewrite ?app_nil_r. Qed.

(** C5, as amended. The constructor opens the session. A call to [start]
    opens none: it logs, then attempts the connection to the url of the
    object with its [ssl] toggle. When the attempt gives a connection,
    [start] stores it in [self.ws], calls the connect hook on it in that
    state and, if the hook returns, runs the receive loop, then leaves the
    [async with] block with [self.ws] still holding the connection. When
    the attempt raises, the [try] block ends there and [self.ws] is left as
    it was. What follows in both cases is the cleanup. *)
Theorem start_connects_then_receives self connect inbound st :
  let attempt := Client.start_try self connect inbound st in
  let r := Client.start self connect inbound st in
  let opening :=
    [EvLog INFO [Lit "Connecting to "; Val (JStr (Client.url (self_ st)));
                 Lit "..."];
     EvWsConnect (Client.url (self_ st)) (Client.ssl (self_ st))] in
  (forall u s, Client.init u s = (Client.Obj None u s true, [EvSessionOpen])) /\
  count is_session_open (evs r) = 0 /\
  (exists rest, evs r = evs attempt ++ rest) /\
  match connect with
  | Raise e =>
      evs attempt = opening /\
      res attempt = Raise e /\
      Client.ws (self_ (post attempt)) = Client.ws (self_ st)
  | Ret w =>
      let stored := post (Client.set_ws w st) in
      let hook := call_on_connect Client.broadcast_json self w stored in
      Client.ws (self_ stored) = Some w /\
      Client.ws (self_ (post attempt)) = Some w /\
      evs hook =
        EvOnConnect w ::
        evs (run_ucode Client.broadcast_json (on_connect self w) stored) /\
      evs attempt =
        opening ++
        evs hook ++
        (match res hook with
         | Ret _ => evs (Client.receive_loop self w (frames inbound)
                           (ending inbound) (post hook))
         | Raise _ => []
         end) ++
        [EvAexit w]
  end.
Proof.
  intros attempt r opening.
  pose proof (start_decompose self connect inbound st) as Hd. cbv zeta in Hd.
  destruct Hd as (He & _ & _). fold r in He.
  pose proof (start_guarded_spec self connect inbound st) as Hg. cbv zeta in Hg.
  destruct Hg as (_ & _ & Hq).
  pose proof (start_try_spec self connect inbound st) as Hs. cbv zeta in Hs.
  destruct Hs as (Hws & _ & _). fold attempt in Hws.
  set (body := start_guarded self connect inbound st) in *.
  set (hook := run_ucode Client.broadcast_json (on_disconnect self JNull)
                 (cleaned (post body))) in *.
  destruct (keeps_client_ucode (on_disconnect self JNull) (cleaned (post body)))
    as [_ Hhook]. fold hook in Hhook.
  split; [done|]. split; [|split].
  - rewrite He, !count_app,
      (count_quiet _ quiet_not_session_open Hq),
      (count_quiet _ quiet_not_session_open Hhook).
    unfold cleanup_events, count.
    by destruct (Client.ws (self_ (post body))),
      (Client.session (self_ (post body))).
  - assert (Hb : exists tl, evs body = evs attempt ++ tl).
    { subst body. unfold start_guarded, try_except. fold attempt.
      destruct (res attempt) as [?|e].
      - exists []. by rewrite app_nil_r.
      - destruct (is_CancelledError e); [by eexists|].
        exists []. by rewrite app_nil_r. }
    destruct Hb as [tl Hb].
    exists (tl ++ cleanup_events (post body) ++ evs hook).
    rewrite He, Hb. by rewrite <- !app_assoc.
  - destruct connect as [w|e].
    + pose proof (start_try_connected self w inbound st) as Ht. cbv zeta in Ht.
      destruct Ht as (_ & _ & Hte). fold attempt in Hte.
      rewrite evs_bind in Hte.
      change (post (Client.set_ws w st)) with (connected w st).
      cbv zeta. split; [done|]. split; [done|]. split.
      * apply call_on_connect_evs.
      * rewrite Hte. subst opening. by rewrite <- !app_assoc.
    + subst attempt opening. by rewrite start_try_refused.
Qed.

(** C5, as stated, fails: a call to [start] on a newly constructed client
    opens no session; the session was opened by the constructor, and the
    first thing [start] does is log and attempt the connection. *)
Lemma start_opens_no_session :
  let r := Client.start example_client (Ret 7) (Stream [] StreamEnd) new_client in
  snd (Client.init example_url true) = [EvSessionOpen] /\
  count is_session_open (evs r) = 0 /\
  take 2 (evs r) =
    [EvLog INFO [Lit "Connecting to "; Val (JStr example_url); Lit "..."];
     EvWsConnect example_url true].
Proof. by vm_compute. Qed.

Lemma handle_on_connect_raises_witness :
  let inbound := Stream [text (msg_of_type "message")] StreamEnd in
  let connect := call_on_connect Server.broadcast_json refusing_server 7
                   (accepted 7 one_other) in
  let hook := run_ucode Server.broadcast_json (on_disconnect refusing_server JNull)
                (torn_down 7 (post connect)) in
  let r := Server.handle refusing_server 7 inbound one_other in
  evs r = [EvAppend 7] ++ evs connect ++
          [EvRemove 7] ++
          (if bool_decide (7 ∈ closed (post connect)) then [] else [EvClose 7]) ++
          [EvOnDisconnect JNull] ++
          evs hook /\
  Server.websockets (self_ (post connect)) =
    Server.websockets (self_ one_other) ++ [7] /\
  (exists before after,
     Server.websockets (self_ (post connect)) = before ++ 7 :: after /\
     (7 ∉ before) /\
     Server.websockets (self_ (post r)) = before ++ after) /\
  7 ∈ closed (post r) /\
  res r = match res hook with
          | Ret _ => Raise (OtherError "Refused")
          | Raise e' => Raise e'
          end.
Proof.
  apply (@handle_on_connect_raises refusing_server 7
           (Stream [text (msg_of_type "message")] StreamEnd) one_other
           (OtherError "Refused")).
  reflexivity.
Defined.
(** C1, as amended. [broadcast_json] leaves the state as it is and attempts
    one send on each connection of the active set that is not closed, in
    the order of the list, up to and including the first attempt that
    raises. When no attempt raises, every such connection gets exactly one
    attempt and the call returns; when one raises, that exception leaves
    [broadcast_json] and the connections after it get no attempt. *)
Theorem broadcast_json_attempts (msg : value) (st : state Server.t) :
  let r := Server.broadcast_json msg st in
  let open := open_websockets st in
  post r = st /\
  evs r = map (fun ws => EvSendJson ws msg) (until_failure (send_err st) open) /\
  count is_send (evs r) = length (until_failure (send_err st) open) /\
  match first_failure (send_err st) open with
  | None => res r = Ret tt /\ send_attempts (evs r) = open
  | Some e =>
      res r = Raise e /\
      exists before ws after,
        open = before ++ ws :: after /\
        send_attempts (evs r) = before ++ [ws] /\
        send_err st !! ws = Some e /\
        first_failure (send_err st) before = None
  end.
Proof.
  intros r open.
  destruct (broadcast_loop_spec (Server.websockets (self_ st)) msg st)
    as (Hp & He & Hr).
  assert (Hevs : evs r =
    map (fun ws => EvSendJson ws msg) (until_failure (send_err st) open)).
  { subst r. unfold Server.broadcast_json, bind, get_self. simpl.
    by rewrite He. }
  assert (Hres : res r = match first_failure (send_err st) open with
                         | Some e => Raise e | None => Ret tt end).
  { subst r. unfold Server.broadcast_json, bind, get_self. simpl.
    rewrite Hr. by destruct (first_failure _ _). }
  split; [|split; [done|split]].
  - subst r. unfold Server.broadcast_json, bind, get_self. simpl.
    by destruct (res _); simpl.
  - rewrite Hevs. apply count_sends.
  - rewrite Hevs, send_attempts_sends, Hres.
    pose proof (failure_split (send_err st) open) as Hs.
    destruct (first_failure (send_err st) open) as [e|]; [|done].
    split; [done|]. destruct Hs as (before & ws & after & ? & ? & ? & ?).
    by exists before, ws, after.
Qed.

(** C1, as stated, fails: with two open connections in the active set, the
    first of which refuses the send, one send is attempted, not two. *)
Lemma broadcast_json_first_failure_stops :
  let r := Server.broadcast_json (msg_of_type "x") two_open_first_fails in
  open_websockets two_open_first_fails = [1; 2] /\
  send_attempts (evs r) = [1] /\
  count is_send (evs r) <> length (open_websockets two_open_first_fails).
Proof. vm_compute. by repeat split. Qed.

(** * Further properties *)

(** ** The decorator *)

(** X1. The function a registration gives back runs the body of the
    decorated function but is a new function, called [_data_handler] when
    no name was given and [__data_handler] otherwise; so decorating that
    result again without a name binds the key [_data_handler], whatever the
    original function was called. *)
Theorem register_returns_wrapper (name : option string) (f : pyfunc)
    (handler handler' : gmap string pyfunc) :
  let w := snd (register name f handler) in
  fn_body w = fn_body f /\
  fn_name w = wrapper_name name /\
  fst (register None w handler') = <[wrapper_name name := w]> handler' /\
  fst (register None w handler') !! wrapper_name name = Some w.
Proof.
  destruct name; simpl; by rewrite lookup_insert_eq.
Qed.

(** X2. A registration changes the binding of its own key only. *)
Theorem register_other_keys (name : option string) (f : pyfunc)
    (handler : gmap string pyfunc) (k : string) :
  k <> key_of name f ->
  fst (register name f handler) !! k = handler !! k.
Proof.
  intros Hk. rewrite register_insert. by apply lookup_insert_ne.
Qed.

Lemma register_other_keys_witness :
  fst (register (Some "x") handler_B (fst (register None handler_A ∅))) !! "first"
  = fst (register None handler_A ∅) !! "first".
Proof.
  apply (@register_other_keys (Some "x") handler_B
           (fst (register None handler_A ∅)) "first").
  discriminate.
Defined.

(** X3. Registrations under different keys commute. *)
Theorem register_commute (n1 n2 : option string) (f1 f2 : pyfunc)
    (handler : gmap string pyfunc) :
  key_of n1 f1 <> key_of n2 f2 ->
  fst (register n2 f2 (fst (register n1 f1 handler))) =
  fst (register n1 f1 (fst (register n2 f2 handler))).
Proof.
  intros Hk. rewrite !register_insert. by apply insert_insert_ne.
Qed.

Lemma register_commute_witness :
  fst (register (Some "x") handler_B (fst (register None handler_A ∅))) =
  fst (register None handler_A (fst (register (Some "x") handler_B ∅))).
Proof.
  apply (@register_commute None (Some "x") handler_A handler_B ∅).
  discriminate.
Defined.

(** X4. A registration adds its key to the keys of the dict and removes
    none. *)
Theorem register_dom (name : option string) (f : pyfunc)
    (handler : gmap string pyfunc) :
  dom (fst (register name f handler)) = {[key_of name f]} ∪ dom handler.
Proof. rewrite register_insert. apply dom_insert_L. Qed.

(** ** Dispatch *)

(** X5. A decoded message that is not a JSON object has no [get]:
    [handle_data] raises [AttributeError], logs nothing and calls nothing. *)
Theorem handle_data_not_a_dict {O} (bc : value -> M O unit) self data ws st :
  match data with
  | JDict _ => True
  | _ => handle_data bc self data ws st = Run (Raise AttributeError) st []
  end.
Proof. by destruct data. Qed.

Lemma dict_get_absent (d : list (string * value)) (k : string) :
  dict_has d k = false -> dict_get d k = JNull.
Proof.
  induction d as [|[k' v] d IH]; simpl; [done|].
  by destruct (String.eqb k' k).
Qed.

(** X7. When the command of a message can be hashed and is not a key of
    the handler dict (a number, a boolean, [None], or an unknown string),
    [handle_data] logs one error naming the command and the class of the
    dispatcher, calls no handler, leaves the state alone and returns
    [None]. *)
Theorem handle_data_unknown_command {O} (bc : value -> M O unit) self d ws st :
  hashable (dict_get d (_command_key self)) = true ->
  not_registered (_data_handler self) (dict_get d (_command_key self)) ->
  handle_data bc self (JDict d) ws st =
  Run (Ret JNull) st
      [unknown_command_log self (dict_get d (_command_key self))].
Proof.
  intros Hh Hn. apply handle_data_unknown.
  destruct (dict_get d (_command_key self)); simpl in *; try done.
  by rewrite Hn.
Qed.

Lemma handle_data_unknown_command_witness :
  handle_data Server.broadcast_json example_server
    (JDict [("type", JStr "nope")]) 7 one_other =
  Run (Ret JNull) one_other
      [unknown_command_log example_server
         (dict_get [("type", JStr "nope")] (_command_key example_server))].
Proof.
  apply (@handle_data_unknown_command Server.t Server.broadcast_json
           example_server [("type", JStr "nope")] 7 one_other);
    reflexivity.
Defined.

(** X6. A message without the command key is dispatched as the command
    [None]: one error about the unknown command [None] is logged, no
    handler is called, the state is left alone and [None] is returned. *)
Theorem handle_data_missing_key {O} (bc : value -> M O unit) self d ws st :
  dict_has d (_command_key self) = false ->
  handle_data bc self (JDict d) ws st =
  Run (Ret JNull) st [unknown_command_log self JNull].
Proof.
  intros Hd. apply dict_get_absent in Hd.
  rewrite handle_data_unknown; by rewrite Hd.
Qed.

Lemma handle_data_missing_key_witness :
  handle_data Server.broadcast_json example_server
    (JDict notype_message) 7 one_other =
  Run (Ret JNull) one_other [unknown_command_log example_server JNull].
Proof.
  apply (@handle_data_missing_key Server.t Server.broadcast_json
           example_server notype_message 7 one_other).
  reflexivity.
Defined.

(** X8. When the command of a message is a key of the handler dict,
    [handle_data] logs the command, calls the function bound to it on the
    message and the connection, and does, returns and raises what the body
    of that function does. *)
Theorem handle_data_dispatches {O} (bc : value -> M O unit) self d ws st x f :
  dict_get d (_command_key self) = JStr x ->
  _data_handler self !! x = Some f ->
  let r := handle_data bc self (JDict d) ws st in
  let b := run_ucode bc (fn_body f (JDict d) ws) st in
  evs r = [EvLog INFO [Lit "handle "; Val (JStr x); Lit "..."];
           EvCall (fn_name f) (JDict d) ws] ++ evs b /\
  res r = res b /\ post r = post b.
Proof.
  intros Hget Hf. apply handle_data_known; [|done]. simpl. by rewrite Hget.
Qed.

Lemma handle_data_dispatches_witness :
  let data := JDict [("type", JStr "message")] in
  let r := handle_data Server.broadcast_json example_server data 7 one_other in
  let b := run_ucode Server.broadcast_json
             (fn_body example_message data 7) one_other in
  evs r = [EvLog INFO [Lit "handle "; Val (JStr "message"); Lit "..."];
           EvCall (fn_name example_message) data 7] ++ evs b /\
  res r = res b /\ post r = post b.
Proof.
  apply (@handle_data_dispatches Server.t Server.broadcast_json example_server
           [("type", JStr "message")] 7 one_other "message" example_message);
    reflexivity.
Defined.

(** ** The server's loop *)

(** X9. The frames the iteration yields (none is of type [CLOSE],
    [CLOSING] or [CLOSED]) are never dispatched when their type is not
    [TEXT], and never end the loop: over such frames the loop leaves the
    state alone, logs one error per frame of type [ERROR] and nothing else,
    and ends as the stream ends. *)
Theorem receive_loop_no_text self ws fs fin (st : state Server.t) :
  Forall (fun msg => yielded (ftype msg) = true /\
                     is_TEXT (ftype msg) = false) fs ->
  Server.receive_loop self ws fs fin st =
  Run (match fin with StreamEnd => Ret tt | StreamRaises e => Raise e end)
      st (error_logs ws fs).
Proof.
  intros Hfs. induction Hfs as [|msg fs [_ Hmsg] _ IH]; simpl.
  - by destruct fin.
  - unfold bind, Server.on_frame, error_logs in *. simpl.
    destruct (ftype msg); try done; simpl; by rewrite IH.
Qed.

Lemma receive_loop_no_text_witness :
  Server.receive_loop example_server 7
    [Frame ERROR (Raise TypeError); Frame BINARY (Ret JNull)] StreamEnd one_other =
  Run (Ret tt) one_other
      (error_logs 7 [Frame ERROR (Raise TypeError); Frame BINARY (Ret JNull)]).
Proof.
  apply (@receive_loop_no_text example_server 7
           [Frame ERROR (Raise TypeError); Frame BINARY (Ret JNull)]
           StreamEnd one_other).
  repeat constructor.
Defined.

(** X10. An unknown command does not end the loop: after a text frame whose
    command can be hashed and is not registered, the loop logs the error and
    goes on with the next frame from the same state. *)
Theorem receive_loop_skips_unknown self ws d rest fin (st : state Server.t) :
  hashable (dict_get d (_command_key self)) = true ->
  not_registered (_data_handler self) (dict_get d (_command_key self)) ->
  let r := Server.receive_loop self ws (text (JDict d) :: rest) fin st in
  let r' := Server.receive_loop self ws rest fin st in
  evs r = unknown_command_log self (dict_get d (_command_key self)) :: evs r' /\
  res r = res r' /\ post r = post r'.
Proof.
  intros Hh Hn r r'. subst r r'.
  assert (Hf : Server.on_frame self ws (text (JDict d)) st =
               Run (Ret tt) st
                   [unknown_command_log self (dict_get d (_command_key self))]).
  { unfold Server.on_frame, text. cbn [ftype loads_data].
    unfold bind, lift_result. cbn [res post evs].
    rewrite (handle_data_unknown_command Server.broadcast_json self d ws st Hh Hn).
    reflexivity. }
  cbn [Server.receive_loop]. unfold bind. rewrite Hf. cbn [res post evs].
  done.
Qed.

Lemma receive_loop_skips_unknown_witness :
  let rest := [text (msg_of_type "message")] in
  let r := Server.receive_loop example_server 7
             (text (JDict notype_message) :: rest) StreamEnd one_other in
  let r' := Server.receive_loop example_server 7 rest StreamEnd one_other in
  evs r = unknown_command_log example_server
            (dict_get notype_message (_command_key example_server)) :: evs r' /\
  res r = res r' /\ post r = post r'.
Proof.
  apply (@receive_loop_skips_unknown example_server 7 notype_message
           [text (msg_of_type "message")] StreamEnd one_other);
    reflexivity.
Defined.

(** X11. After a text frame the retained outcome is what the handler
    returned when that is truthy, and the one retained before otherwise
    (the handler returned [None], [0], an empty string, list or dict, or
    raised); the active set is as before. *)
Theorem on_frame_retains self ws data (st : state Server.t) :
  let h := handle_data Server.broadcast_json self data ws st in
  let r := Server.on_frame self ws (text data) st in
  Server.ws_data (self_ (post r)) =
    match res h with
    | Ret v => if truthy v then v else Server.ws_data (self_ st)
    | Raise _ => Server.ws_data (self_ st)
    end /\
  Server.websockets (self_ (post r)) = Server.websockets (self_ st) /\
  res r = match res h with Ret _ => Ret tt | Raise e => Raise e end.
Proof.
  intros h r.
  assert (Hk : keeps (frame_step eq)
                 (handle_data Server.broadcast_json self data ws)).
  { keep keeps_handle_data;
      [intros; keep frame_step_close | intros; keep keeps_server_broadcast]. }
  destruct (Hk st) as [(Hself & _ & _) _]. fold h in Hself.
  subst r. unfold Server.on_frame. simpl. unfold bind at 1. simpl.
  unfold bind. fold h. destruct (res h) as [v|e]; simpl.
  - destruct (truthy v); simpl; by rewrite <- Hself.
  - by rewrite <- Hself.
Qed.

(** X12. Frames are handled one after the other in the order of the
    stream: the loop over a stream is the loop over its first frames
    followed, from the state that one ends in, by the loop over the
    others. *)
Theorem receive_loop_in_order self ws fs1 fs2 fin (st : state Server.t) :
  Server.receive_loop self ws (fs1 ++ fs2) fin st =
  (Server.receive_loop self ws fs1 StreamEnd ;;
   Server.receive_loop self ws fs2 fin) st.
Proof. apply receive_loop_app. Qed.

(** X13. Once the handling of a frame raises, the frames after it are not
    handled: the loop ends there, in the same state and with the same
    events and exception. *)
Theorem receive_loop_stops_at_error self ws fs1 fs2 fin (st : state Server.t) e :
  res (Server.receive_loop self ws fs1 StreamEnd st) = Raise e ->
  Server.receive_loop self ws (fs1 ++ fs2) fin st =
  Server.receive_loop self ws fs1 StreamEnd st.
Proof.
  intros He. rewrite receive_loop_app. unfold bind. rewrite He.
  destruct (Server.receive_loop self ws fs1 StreamEnd st). simpl in *.
  by rewrite He.
Qed.

Lemma receive_loop_stops_at_error_witness :
  Server.receive_loop example_server 7
    ([Frame TEXT (Raise JSONDecodeError)] ++ [text (msg_of_type "message")])
    StreamEnd one_other =
  Server.receive_loop example_server 7
    [Frame TEXT (Raise JSONDecodeError)] StreamEnd one_other.
Proof.
  apply (@receive_loop_stops_at_error example_server 7
           [Frame TEXT (Raise JSONDecodeError)] [text (msg_of_type "message")]
           StreamEnd one_other JSONDecodeError).
  reflexivity.
Defined.

(** ** Broadcast and teardown *)

Lemma until_failure_Forall (P : conn -> Prop) err l :
  Forall P l -> Forall P (until_failure err l).
Proof.
  induction 1 as [|ws l Hws _ IH]; simpl; [done|].
  destruct (err !! ws); by repeat constructor.
Qed.

(** X14. [broadcast_json] attempts a send only on connections that are in
    the active set and not closed. *)
Theorem broadcast_json_only_open (msg : value) (st : state Server.t) :
  Forall (fun ws => ws ∈ Server.websockets (self_ st) /\ ws ∉ closed st)
         (send_attempts (evs (Server.broadcast_json msg st))).
Proof.
  destruct (broadcast_loop_spec (Server.websockets (self_ st)) msg st)
    as (_ & He & _).
  assert (Hevs : evs (Server.broadcast_json msg st) =
                 evs (Server.broadcast_loop (Server.websockets (self_ st)) msg st)).
  { unfold Server.broadcast_json. by rewrite evs_bind. }
  rewrite Hevs, He, send_attempts_sends.
  apply until_failure_Forall, Forall_forall.
  intros ws Hin. apply list_elem_of_In, List.filter_In in Hin as [Hin Hop].
  split; [by apply list_elem_of_In|].
  apply negb_true_iff, bool_decide_eq_false in Hop. done.
Qed.

Lemma list_remove_others (ws : conn) (l l' : list conn) :
  Server.list_remove ws l = Some l' ->
  List.filter (fun x => negb (Nat.eqb x ws)) l' =
  List.filter (fun x => negb (Nat.eqb x ws)) l /\
  S (length l') = length l.
Proof.
  revert l'. induction l as [|y l IH]; intros l'; simpl; [done|].
  destruct (Nat.eqb y ws) eqn:Hy; simpl.
  - by intros [= ->].
  - destruct (Server.list_remove ws l) as [l''|]; [|done].
    intros [= <-]. destruct (IH l'' eq_refl) as [Hf Hl].
    simpl. by rewrite Hy, Hf, Hl.
Qed.

(** X15. When the connection is already closed as [handle] takes it, the
    teardown does not close it again: after the [try] block come the
    removal and the disconnect hook only. *)
Theorem handle_closed_connection self ws inbound (st : state Server.t) :
  ws ∈ closed st ->
  let body := Server.handle_try self ws inbound
                (post (Server.set_ws_data JNull st)) in
  let hook := run_ucode Server.broadcast_json
                (on_disconnect self (Server.ws_data (self_ (post body))))
                (torn_down ws (post body)) in
  evs (Server.handle self ws inbound st) =
  evs body ++
  [EvRemove ws; EvOnDisconnect (Server.ws_data (self_ (post body)))] ++
  evs hook.
Proof.
  intros Hc body hook.
  destruct (handle_decompose self ws inbound st) as (He & _).
  fold body hook in He.
  pose proof (handle_try_accepted self ws inbound st) as Ha. cbv zeta in Ha.
  destruct Ha as (_ & Hp & _). fold body in Hp.
  destruct (keeps_handle_rest self ws inbound (accepted ws st))
    as [(_ & Hcl & _) _].
  rewrite <- Hp in Hcl.
  rewrite He. unfold teardown_events.
  rewrite bool_decide_eq_true_2 by (apply Hcl; done). done.
Qed.

Lemma handle_closed_connection_witness :
  let st := State (Server.Obj [3] "client_id" JNull) {[7]} ∅ in
  let inbound := Stream [text (msg_of_type "message")] StreamEnd in
  let body := Server.handle_try example_server 7 inbound
                (post (Server.set_ws_data JNull st)) in
  let hook := run_ucode Server.broadcast_json
                (on_disconnect example_server
                   (Server.ws_data (self_ (post body))))
                (torn_down 7 (post body)) in
  evs (Server.handle example_server 7 inbound st) =
  evs body ++
  [EvRemove 7; EvOnDisconnect (Server.ws_data (self_ (post body)))] ++
  evs hook.
Proof.
  apply (@handle_closed_connection example_server 7
           (Stream [text (msg_of_type "message")] StreamEnd)
           (State (Server.Obj [3] "client_id" JNull) {[7]} ∅)).
  apply (bool_decide_unpack _). vm_compute. exact I.
Defined.

(** X16. [handle] leaves the other connections of the active set as they
    are, in their order, and the set as long as it was, also when the
    connection it takes is in the set already. *)
Theorem handle_keeps_others self ws inbound (st : state Server.t) :
  let r := Server.handle self ws inbound st in
  List.filter (fun x => negb (Nat.eqb x ws)) (Server.websockets (self_ (post r))) =
  List.filter (fun x => negb (Nat.eqb x ws)) (Server.websockets (self_ st)) /\
  length (Server.websockets (self_ (post r))) =
  length (Server.websockets (self_ st)).
Proof.
  intros r.
  destruct (handle_decompose self ws inbound st) as (_ & _ & _ & Hrm & _).
  destruct (handle_try_websockets self ws inbound st) as (Hw & _).
  fold r in Hrm. rewrite Hw in Hrm.
  destruct (list_remove_others _ _ Hrm) as [Hf Hl].
  rewrite Hf, List.filter_app. simpl. rewrite Nat.eqb_refl. simpl.
  split; [by rewrite app_nil_r|].
  rewrite length_app in Hl. simpl in Hl. lia.
Qed.

(** ** The client *)

Lemma start_error_propagates_witness :
  let inbound := Stream [text (msg_of_type "message")] StreamEnd in
  let attempt := Client.start_try example_client (Ret 7) inbound new_client in
  let hook := run_ucode Client.broadcast_json (on_disconnect example_client JNull)
                (cleaned (post attempt)) in
  let r := Client.start example_client (Ret 7) inbound new_client in
  evs r = evs attempt ++ cleanup_events (post attempt) ++ evs hook /\
  res r = match res hook with Ret _ => Raise SystemExit | Raise e' => Raise e' end.
Proof.
  apply (@start_error_propagates example_client (Ret 7)
           (Stream [text (msg_of_type "message")] StreamEnd) new_client
           SystemExit);
    reflexivity.
Defined.

(** X17. When the connection attempt raises an exception other than a
    cancellation and the client holds no connection, [start] calls neither
    the connect hook nor a close of a connection: it logs, attempts,
    closes the session if there is one, calls the disconnect hook on [None],
    and raises the exception of the attempt (unless the hook raises). *)
Theorem start_connection_refused self e inbound (st : state Client.t) :
  is_CancelledError e = false ->
  Client.ws (self_ st) = None ->
  let hook := run_ucode Client.broadcast_json (on_disconnect self JNull)
                (cleaned st) in
  let r := Client.start self (Raise e) inbound st in
  evs r = [EvLog INFO [Lit "Connecting to "; Val (JStr (Client.url (self_ st)));
                       Lit "..."];
           EvWsConnect (Client.url (self_ st)) (Client.ssl (self_ st))] ++
          (if Client.session (self_ st) then [EvSessionClose] else []) ++
          [EvOnDisconnect JNull] ++
          evs hook /\
  res r = match res hook with Ret _ => Raise e | Raise e' => Raise e' end.
Proof.
  intros Hne Hws hook r.
  assert (Hr : res (Client.start_try self (Raise e) inbound st) = Raise e)
    by by rewrite start_try_refused.
  pose proof (start_error_propagates self (Raise e) inbound st Hr Hne) as Hp.
  cbv zeta in Hp. rewrite start_try_refused in Hp. cbn [post evs] in Hp.
  fold hook r in Hp. destruct Hp as [He Hres]. split; [|done].
  rewrite He. unfold cleanup_events. rewrite Hws. cbn [app].
  by rewrite <- !app_assoc.
Qed.

Lemma start_connection_refused_witness :
  let e := OtherError "ClientConnectorError" in
  let inbound := Stream [] StreamEnd in
  let hook := run_ucode Client.broadcast_json (on_disconnect example_client JNull)
                (cleaned new_client) in
  let r := Client.start example_client (Raise e) inbound new_client in
  evs r = [EvLog INFO [Lit "Connecting to ";
                       Val (JStr (Client.url (self_ new_client))); Lit "..."];
           EvWsConnect (Client.url (self_ new_client))
                       (Client.ssl (self_ new_client))] ++
          (if Client.session (self_ new_client) then [EvSessionClose] else []) ++
          [EvOnDisconnect JNull] ++
          evs hook /\
  res r = match res hook with Ret _ => Raise e | Raise e' => Raise e' end.
Proof.
  apply (@start_connection_refused example_client
           (OtherError "ClientConnectorError") (Stream [] StreamEnd) new_client);
    reflexivity.
Defined.

(** X18. [start] never resets [self.ws] or [self.session]: when it is over,
    [self.ws] is the connection the attempt gave, or what it was before
    when the attempt raised. *)
Theorem start_keeps_connection self connect inbound (st : state Client.t) :
  let r := Client.start self connect inbound st in
  Client.ws (self_ (post r)) =
    match connect with Ret w => Some w | Raise _ => Client.ws (self_ st) end /\
  Client.session (self_ (post r)) = Client.session (self_ st).
Proof.
  intros r.
  destruct (start_decompose self connect inbound st) as (_ & _ & Hp).
  destruct (start_guarded_spec self connect inbound st) as (Hw & Hs & _).
  destruct (keeps_client_ucode (on_disconnect self JNull)
              (cleaned (post (start_guarded self connect inbound st))))
    as [(Hself & _ & _) _].
  fold r in Hp. rewrite Hp, <- Hself. by unfold cleaned.
Qed.

(** X19. When the attempt gave a connection, that connection is closed
    when [start] is over, however [start] ends. *)
Theorem start_closes_connection self w inbound (st : state Client.t) :
  w ∈ closed (post (Client.start self (Ret w) inbound st)).
Proof.
  destruct (start_decompose self (Ret w) inbound st) as (_ & _ & Hp).
  destruct (start_guarded_spec self (Ret w) inbound st) as (Hw & _ & _).
  destruct (keeps_client_ucode (on_disconnect self JNull)
              (cleaned (post (start_guarded self (Ret w) inbound st))))
    as [(_ & Hcl & _) _].
  rewrite Hp. apply Hcl. unfold cleaned. cbn [closed]. rewrite Hw.
  apply elem_of_union_l, elem_of_singleton. done.
Qed.

(** X21. The client's loop does not look at the type of a frame: a stream
    of yielded frames (none of type [CLOSE], [CLOSING] or [CLOSED]) and the
    same stream under other such types are handled alike. *)
Theorem client_loop_ignores_type self w (g : WSMsgType -> WSMsgType) fs fin
    (st : state Client.t) :
  Forall (fun msg => yielded (ftype msg) = true /\
                     yielded (g (ftype msg)) = true) fs ->
  Client.receive_loop self w (map (retype g) fs) fin st =
  Client.receive_loop self w fs fin st.
Proof.
  intros _. revert st. induction fs as [|msg fs IH]; intros st; simpl; [done|].
  apply bind_ext. intros _ st'. apply IH.
Qed.

Lemma client_loop_ignores_type_witness :
  Client.receive_loop example_client 7
    (map (retype (fun _ => BINARY)) [text (msg_of_type "message")])
    StreamEnd new_client =
  Client.receive_loop example_client 7 [text (msg_of_type "message")]
    StreamEnd new_client.
Proof.
  apply (@client_loop_ignores_type example_client 7 (fun _ => BINARY)
           [text (msg_of_type "message")] StreamEnd new_client).
  repeat constructor.
Defined.
